(** * DataProcessor: a shallow embedding of [data_processor.py]

    The development follows the Python module
    [demo/examples/python/data_processor.py]: the [ProcessingResult]
    dataclass, the [DataProcessor] class with its three shape transforms,
    the recursive [_flatten_dict], and the history and statistics methods.

    Modelling choices, fixed once here:

    - Python data is the type [value]: [None], [bool], [int], [str],
      [list] and [dict].  Floating-point data values are outside [value];
      the only floats of the module (the processing times and the rates of
      [get_statistics]) have their own type.
    - A [dict] is an association list in insertion order, as CPython keeps
      it; keys are strings (the keys of every mapping the module builds or
      that a JSON text decodes to).  A dictionary proper has pairwise
      distinct keys: [NoDup (keys d)].
    - Text is [string]; the characters are ASCII, so [str.upper] and
      [str.strip] are the ASCII ones.
    - A raised exception is [Raise msg], [msg] being [str(e)], the only
      thing [process_data] reads from an exception it catches.
    - [self.processing_history] is a reference to a list object: lists live
      in a store, and [get_processing_history] allocates the copy it
      returns.
    - [datetime.now()] is read twice by [process_data]; both readings are
      arguments.  The logger calls have no effect on any value and are
      left out; [async]/[await] only sequence the calls.
    - [json.loads], the iteration order of a [set] and the builtin [sum]
      over floats belong to the Python runtime: class [Runtime]. *)

From Stdlib Require Import ZArith String Ascii List Lia Permutation.
From Stdlib Require Import Floats.PrimFloat Numbers.Cyclic.Int63.Uint63.
From stdpp Require Import base option list strings gmap sorting.

Open Scope string_scope.
Open Scope list_scope.
Open Scope Z_scope.

(** ** Text *)

Module Str.

Definition code (c : ascii) : N := N_of_ascii c.

(** [c.upper()] for one ASCII character. *)
Definition upper_char (c : ascii) : ascii :=
  if ((97 <=? code c) && (code c <=? 122))%N
  then ascii_of_N (code c - 32)
  else c.

(** [s.upper()] *)
Fixpoint upper (s : string) : string :=
  match s with
  | EmptyString => EmptyString
  | String c s' => String (upper_char c) (upper s')
  end.

(** [c.isspace()]: tab, line feed, vertical tab, form feed, carriage
    return, the four separators 0x1c-0x1f, and the space. *)
Definition is_space (c : ascii) : bool :=
  ((9 <=? code c) && (code c <=? 13) || (28 <=? code c) && (code c <=? 32))%N.

(** [s.lstrip()] *)
Fixpoint lstrip (s : string) : string :=
  match s with
  | EmptyString => EmptyString
  | String c s' => if is_space c then lstrip s' else s
  end.

(** [s.rstrip()] *)
Fixpoint rstrip (s : string) : string :=
  match s with
  | EmptyString => EmptyString
  | String c s' =>
      match rstrip s' with
      | EmptyString => if is_space c then EmptyString else String c EmptyString
      | r => String c r
      end
  end.

(** [s.strip()] *)
Definition strip (s : string) : string := rstrip (lstrip s).

(** [s.replace(old, new)] for one-character [old] and [new]. *)
Fixpoint replace_char (old new : ascii) (s : string) : string :=
  match s with
  | EmptyString => EmptyString
  | String c s' =>
      String (if Ascii.eqb c old then new else c) (replace_char old new s')
  end.

(** [a < b] on [str]: lexicographic, by code point. *)
Fixpoint ltb (a b : string) : bool :=
  match a, b with
  | EmptyString, EmptyString => false
  | EmptyString, String _ _ => true
  | String _ _, EmptyString => false
  | String x a', String y b' =>
      if (code x <? code y)%N then true
      else if (code y <? code x)%N then false
      else ltb a' b'
  end.

Definition LF : ascii := ascii_of_N 10.
Definition CR : ascii := ascii_of_N 13.
Definition SP : ascii := ascii_of_N 32.

End Str.

(** ** Python values *)

Unset Elimination Schemes.
Inductive value : Type :=
| VNone
| VBool (b : bool)
| VInt (n : Z)
| VStr (s : string)
| VList (items : list value)
| VDict (entries : list (string * value)).
Set Elimination Schemes.

(** A [dict]: its entries in insertion order. *)
Definition dict : Type := list (string * value).

Definition keys {V} (d : list (string * V)) : list string := fst <$> d.

(** Structural induction through the two containers. *)
Section value_induction.
Variable P : value -> Prop.
Hypothesis HNone : P VNone.
Hypothesis HBool : forall b, P (VBool b).
Hypothesis HInt : forall n, P (VInt n).
Hypothesis HStr : forall s, P (VStr s).
Hypothesis HList : forall l, Forall P l -> P (VList l).
Hypothesis HDict : forall d : dict, Forall (fun kv => P (snd kv)) d -> P (VDict d).

Fixpoint value_ind (v : value) : P v :=
  match v with
  | VNone => HNone
  | VBool b => HBool b
  | VInt n => HInt n
  | VStr s => HStr s
  | VList l =>
      HList l ((fix all (l : list value) : Forall P l :=
                  match l with
                  | [] => @List.Forall_nil _ P
                  | x :: l' => @List.Forall_cons _ P x l' (value_ind x) (all l')
                  end) l)
  | VDict d =>
      HDict d ((fix all (d : list (string * value))
                 : Forall (fun kv => P (snd kv)) d :=
                  match d with
                  | [] => @List.Forall_nil _ _
                  | kv :: d' =>
                      @List.Forall_cons _ (fun kv => P (snd kv)) kv d'
                        (value_ind (snd kv)) (all d')
                  end) d)
  end.
End value_induction.

(** ** Exceptions *)

(** The outcome of a computation that may raise: its value, or [str(e)]
    of the exception [e] it raised. *)
Inductive outcome (A : Type) : Type :=
| Return (a : A)
| Raise (msg : string).
Arguments Return {A} a.
Arguments Raise {A} msg.

#[export] Instance outcome_ret : MRet outcome := fun A a => Return a.
#[export] Instance outcome_bind : MBind outcome := fun A B f m =>
  match m with
  | Return a => f a
  | Raise msg => Raise msg
  end.

Definition raised {A} (m : outcome A) : bool :=
  match m with
  | Return _ => false
  | Raise _ => true
  end.

(** ** Builtins on values *)

(** [type(v).__name__] *)
Definition type_name (v : value) : string :=
  match v with
  | VNone => "NoneType"
  | VBool _ => "bool"
  | VInt _ => "int"
  | VStr _ => "str"
  | VList _ => "list"
  | VDict _ => "dict"
  end.

(** [str(type(v))] *)
Definition type_repr (v : value) : string :=
  "<class '" +:+ type_name v +:+ "'>".

Definition is_none (v : value) : bool :=
  match v with
  | VNone => true
  | _ => false
  end.

Definition is_dict (v : value) : bool :=
  match v with
  | VDict _ => true
  | _ => false
  end.

(** [d.get(k)]: the first (for a dictionary proper, the only) entry of [k]. *)
Fixpoint dict_get {V} (d : list (string * V)) (k : string) : option V :=
  match d with
  | [] => None
  | (k', v) :: d' => if String.eqb k' k then Some v else dict_get d' k
  end.

(** [d[k] = v]: an existing key keeps its place and takes the new value,
    a new key goes last. *)
Fixpoint dict_set {V} (d : list (string * V)) (k : string) (v : V)
  : list (string * V) :=
  match d with
  | [] => [(k, v)]
  | (k', v') :: d' =>
      if String.eqb k' k then (k', v) :: d' else (k', v') :: dict_set d' k v
  end.

(** [dict(items)], and what a dict comprehension builds from the pairs it
    yields: the pairs are stored one after the other. *)
Definition dict_of_items {V} (items : list (string * V)) : list (string * V) :=
  fold_left (fun d kv => dict_set d (fst kv) (snd kv)) items [].

(** [bool] is a subclass of [int]: the integer a number stands for. *)
Definition as_int (v : value) : option Z :=
  match v with
  | VBool b => Some (Z.b2z b)
  | VInt n => Some n
  | _ => None
  end.

(** [x == y] *)
Fixpoint py_eq (x y : value) {struct x} : bool :=
  match x, y with
  | VNone, VNone => true
  | VBool a, VBool b => Bool.eqb a b
  | VBool a, VInt n => Z.b2z a =? n
  | VInt n, VBool b => n =? Z.b2z b
  | VInt a, VInt b => a =? b
  | VStr a, VStr b => String.eqb a b
  | VList xs, VList ys =>
      (fix items_eq (xs ys : list value) : bool :=
         match xs, ys with
         | [], [] => true
         | a :: xs', b :: ys' => py_eq a b && items_eq xs' ys'
         | _, _ => false
         end) xs ys
  | VDict d, VDict e =>
      (length d =? length e)%nat &&
      (fix entries_eq (d : list (string * value)) : bool :=
         match d with
         | [] => true
         | (k, v) :: d' =>
             match dict_get e k with
             | Some w => py_eq v w && entries_eq d'
             | None => false
             end
         end) d
  | _, _ => false
  end.

(** The [TypeError] of an ordering comparison. *)
Definition not_supported (op : string) (x y : value) : string :=
  "'" +:+ op +:+ "' not supported between instances of '"
      +:+ type_name x +:+ "' and '" +:+ type_name y +:+ "'".

(** [x < y]: numbers by value, text by code points, lists by their first
    differing items; anything else raises [TypeError]. *)
Fixpoint py_lt (x y : value) {struct x} : outcome bool :=
  match x, y with
  | VStr a, VStr b => Return (Str.ltb a b)
  | VList xs, VList ys =>
      (fix items_lt (xs ys : list value) : outcome bool :=
         match xs, ys with
         | [], [] => Return false
         | [], _ :: _ => Return true
         | _ :: _, [] => Return false
         | a :: xs', b :: ys' =>
             if py_eq a b then items_lt xs' ys' else py_lt a b
         end) xs ys
  | _, _ =>
      match as_int x, as_int y with
      | Some a, Some b => Return (a <? b)
      | _, _ => Raise (not_supported "<" x y)
      end
  end.

(** [sorted(data)].  CPython's sort is a stable comparison sort that
    propagates the first exception a comparison raises; it is modelled by
    the stable insertion sort over [py_lt].  Which pairs are compared, and
    in which order, is CPython's own. *)
Fixpoint insert_sorted (x : value) (l : list value) : outcome (list value) :=
  match l with
  | [] => Return [x]
  | y :: l' =>
      b ← py_lt x y;
      if b : bool then Return (x :: y :: l')
      else r ← insert_sorted x l'; Return (y :: r)
  end.

Definition py_sorted (data : list value) : outcome (list value) :=
  fold_left (fun acc x => l ← acc; insert_sorted x l) data (Return []).

(** [hash(v)] raises [TypeError] for the two mutable containers. *)
Definition hashable (v : value) : bool :=
  match v with
  | VList _ | VDict _ => false
  | _ => true
  end.

Definition set_add (s : list value) (x : value) : list value :=
  if existsb (py_eq x) s then s else s ++ [x].

(** [set(data)]: the elements are hashed and added in order; the set is
    given by its elements in insertion order, the first of equal elements
    being the one kept. *)
Definition py_set (data : list value) : outcome (list value) :=
  fold_left
    (fun acc x =>
       s ← acc;
       if hashable x then Return (set_add s x)
       else Raise ("unhashable type: '" +:+ type_name x +:+ "'"))
    data (Return []).

(** ** Floats and time *)

(** The integer [n] as a float (exact while [|n| < 2^53]). *)
Definition float_of_Z (n : Z) : float :=
  if n <? 0 then PrimFloat.opp (PrimFloat.of_uint63 (Uint63.of_Z (- n)))
  else PrimFloat.of_uint63 (Uint63.of_Z n).

(** [a / b] on two [int]s, and on a [float] and an [int]. *)
Definition int_truediv (a b : Z) : float :=
  PrimFloat.div (float_of_Z a) (float_of_Z b).

Definition float_truediv (a : float) (b : Z) : float :=
  PrimFloat.div a (float_of_Z b).

(** A [datetime]: microseconds since the epoch. *)
Definition datetime : Type := Z.

(** [(t1 - t0).total_seconds()] *)
Definition total_seconds (t1 t0 : datetime) : float :=
  int_truediv (t1 - t0) 1000000.

(** The values a metadata or statistics dictionary holds. *)
Inductive scalar : Type :=
| SInt (n : Z)
| SFloat (f : float)
| SStr (s : string).

(** ** The Python runtime *)

(** The result of [json.loads]: the decoded value, or [JSONDecodeError]. *)
Inductive decoded : Type :=
| Decoded (v : value)
| JSONDecodeError (msg : string).

Class Runtime : Type := {
  (** [json.loads(text)] *)
  json_loads : string -> decoded;
  (** the order in which [list(s)] yields the elements of a set [s] *)
  set_order : list value -> list value;
  set_order_perm : forall s, Permutation (set_order s) s;
  (** the builtin [sum] over floats *)
  float_sum : list float -> float
}.

(** ** [ProcessingResult] *)

Record ProcessingResult : Type := {
  success : bool;
  data : value;
  metadata : list (string * scalar);
  timestamp : datetime;
  processing_time : float
}.

(** ** The store of list objects *)

(** A reference to a list object. *)
Definition loc : Type := positive.

Abbreviation store := (gmap positive (list ProcessingResult)).

(** [l.append(x)], [l.clear()] and [l.copy()] on the list at a reference. *)
Definition list_append (l : loc) (x : ProcessingResult) (σ : store) : store :=
  alter (fun h => h ++ [x]) l σ.

Definition list_clear (l : loc) (σ : store) : store :=
  alter (fun _ => []) l σ.

Definition list_read (l : loc) (σ : store) : list ProcessingResult :=
  default [] (σ !! l).

Definition list_copy (l : loc) (σ : store) : loc * store :=
  let l' := fresh (dom σ) in (l', <[l' := list_read l σ]> σ).

(** Any in-place change of the list at a reference ([append], [remove],
    [pop], [reverse], [sort], slice assignment, ...). *)
Definition list_mutate (f : list ProcessingResult -> list ProcessingResult)
  (l : loc) (σ : store) : store :=
  alter f l σ.

(** ** [DataProcessor] *)

Record DataProcessor : Type := {
  config : dict;
  processing_history : loc
}.

(** [_flatten_dict]: the pairs collected in [items] by the loop over
    [data.items()], then [dict(items)].  The recursion descends into the
    values that are dictionaries. *)
Definition new_key (parent_key sep k : string) : string :=
  if String.eqb parent_key "" then k else parent_key +:+ sep +:+ k.

Fixpoint flatten_value (v : value) (parent_key sep : string) {struct v} : dict :=
  match v with
  | VDict data =>
      dict_of_items
        ((fix loop (entries : list (string * value)) : list (string * value) :=
            match entries with
            | [] => []
            | (k, v') :: rest =>
                match v' with
                | VDict _ => flatten_value v' (new_key parent_key sep k) sep
                | _ => [(new_key parent_key sep k, v')]
                end ++ loop rest
            end) data)
  | _ => []
  end.

Definition _flatten_dict (data : dict) (parent_key sep : string) : dict :=
  flatten_value (VDict data) parent_key sep.

(** The list [items] at the end of the loop of [_flatten_dict]. *)
Fixpoint flatten_items (data : dict) (parent_key sep : string) : list (string * value) :=
  match data with
  | [] => []
  | (k, v) :: rest =>
      match v with
      | VDict d => _flatten_dict d (new_key parent_key sep k) sep
      | _ => [(new_key parent_key sep k, v)]
      end ++ flatten_items rest parent_key sep
  end.

Section DataProcessor.
Context {rt : Runtime}.

(** [__init__] *)
Definition DataProcessor_init (cfg : option dict) (σ : store)
  : DataProcessor * store :=
  let l := fresh (dom σ) in
  ({| config := match cfg with
                | Some (kv :: d) => kv :: d
                | _ => []
                end;
      processing_history := l |},
   <[l := []]> σ).

Definition _process_string_data (data : string) (operation : string)
  : outcome value :=
  if String.eqb operation "transform" then
    Return (VStr (Str.upper data))
  else if String.eqb operation "parse" then
    match json_loads data with
    | Decoded v => Return v
    | JSONDecodeError _ =>
        Return (VDict [("raw", VStr data); ("parsed", VBool false)])
    end
  else if String.eqb operation "clean" then
    Return (VStr (Str.replace_char Str.CR Str.SP
                    (Str.replace_char Str.LF Str.SP (Str.strip data))))
  else
    Return (VStr data).

Definition _process_list_data (data : list value) (operation : string)
  : outcome value :=
  if String.eqb operation "transform" then
    Return (VList ((fun item => match item with
                                   | VStr s => VStr (Str.upper s)
                                   | _ => item
                                   end) <$> data))
  else if String.eqb operation "filter" then
    Return (VList (List.filter (fun item => negb (is_none item)) data))
  else if String.eqb operation "sort" then
    l ← py_sorted data; Return (VList l)
  else if String.eqb operation "unique" then
    s ← py_set data; Return (VList (set_order s))
  else
    Return (VList data).

Definition _process_dict_data (data : dict) (operation : string)
  : outcome value :=
  if String.eqb operation "transform" then
    Return (VDict (dict_of_items
                     ((fun kv => (Str.upper (fst kv), snd kv)) <$> data)))
  else if String.eqb operation "filter" then
    Return (VDict (dict_of_items
                     (List.filter (fun kv => negb (is_none (snd kv))) data)))
  else if String.eqb operation "flatten" then
    Return (VDict (_flatten_dict data "" "_"))
  else
    Return (VDict data).

(** The body of the [try] block up to the assignment of [result_data]. *)
Definition dispatch (data : value) (operation : string) : outcome value :=
  match data with
  | VStr s => _process_string_data s operation
  | VList l => _process_list_data l operation
  | VDict d => _process_dict_data d operation
  | _ => Raise ("Unsupported data type: " +:+ type_repr data)
  end.

(** [process_data]; [start_time] and [end_time] are the two readings of
    [datetime.now()]. *)
Definition process_data (self : DataProcessor) (data : value)
  (operation : string) (start_time end_time : datetime) (σ : store)
  : ProcessingResult * store :=
  match dispatch data operation with
  | Return result_data =>
      let elapsed := total_seconds end_time start_time in
      let result :=
        {| success := true;
           data := result_data;
           metadata := [("operation", SStr operation);
                        ("input_type", SStr (type_name data));
                        ("output_type", SStr (type_name result_data));
                        ("processing_time", SFloat elapsed)];
           timestamp := start_time;
           processing_time := elapsed |} in
      (result, list_append (processing_history self) result σ)
  | Raise msg =>
      ({| success := false;
          data := VNone;
          metadata := [("error", SStr msg)];
          timestamp := start_time;
          processing_time := total_seconds end_time start_time |},
       σ)
  end.

(** A call [process_data(data, operation)] with its two clock readings,
    and a sequence of calls on one processor: the results in call order
    and the final store. *)
Record call : Type := {
  call_data : value;
  call_operation : string;
  call_start : datetime;
  call_end : datetime
}.

Fixpoint run_calls (self : DataProcessor) (calls : list call) (σ : store)
  : list ProcessingResult * store :=
  match calls with
  | [] => ([], σ)
  | c :: calls' =>
      let '(r, σ1) :=
        process_data self (call_data c) (call_operation c)
          (call_start c) (call_end c) σ in
      let '(rs, σ2) := run_calls self calls' σ1 in
      (r :: rs, σ2)
  end.

(** [get_processing_history] *)
Definition get_processing_history (self : DataProcessor) (σ : store)
  : loc * store :=
  list_copy (processing_history self) σ.

(** [clear_history] *)
Definition clear_history (self : DataProcessor) (σ : store) : store :=
  list_clear (processing_history self) σ.

(** [sum(1 for result in history if result.success)] *)
Definition count_successful (history : list ProcessingResult) : Z :=
  fold_left Z.add ((fun _ => 1) <$> List.filter success history) 0.

(** [get_statistics] *)
Definition get_statistics (self : DataProcessor) (σ : store)
  : list (string * scalar) :=
  match list_read (processing_history self) σ with
  | [] => [("total_operations", SInt 0); ("success_rate", SFloat 0%float)]
  | history =>
      let total_operations := Z.of_nat (length history) in
      let successful_operations := count_successful history in
      let success_rate := int_truediv successful_operations total_operations in
      let total_processing_time := float_sum (processing_time <$> history) in
      let average_processing_time :=
        float_truediv total_processing_time total_operations in
      [("total_operations", SInt total_operations);
       ("successful_operations", SInt successful_operations);
       ("success_rate", SFloat success_rate);
       ("total_processing_time", SFloat total_processing_time);
       ("average_processing_time", SFloat average_processing_time)]
  end.

End DataProcessor.

(** ** Notions used by the statements *)

(** The loop of [dict(items)], from a dictionary already built. *)
Definition store_items {V} (acc items : list (string * V)) : list (string * V) :=
  fold_left (fun d kv => dict_set d (fst kv) (snd kv)) items acc.

(** The three shapes [process_data] accepts. *)
Definition supported_shape (data : value) : bool :=
  match data with
  | VStr _ | VList _ | VDict _ => true
  | _ => false
  end.

(** The operation names each shape's transform tests for. *)
Definition enumerated_operations (data : value) : list string :=
  match data with
  | VStr _ => ["transform"; "parse"; "clean"]
  | VList _ => ["transform"; "filter"; "sort"; "unique"]
  | VDict _ => ["transform"; "filter"; "flatten"]
  | _ => []
  end.

(** [leaf_at d p v]: following the keys [p] from the mapping [d], through
    mappings only, ends at the value [v], which is not a mapping. *)
Inductive leaf_at : dict -> list string -> value -> Prop :=
| leaf_here (d : dict) (k : string) (v : value) :
    (k, v) ∈ d -> is_dict v = false -> leaf_at d [k] v
| leaf_below (d d' : dict) (k : string) (p : list string) (v : value) :
    (k, VDict d') ∈ d -> leaf_at d' p v -> leaf_at d (k :: p) v.

(** The key of a path: [new_key] applied along it, from [parent_key]. *)
Definition path_key (sep parent_key : string) (p : list string) : string :=
  fold_left (fun pk k => new_key pk sep k) p parent_key.

(** The statistics as the specification words them, from the history. *)
Definition statistics_spec {rt : Runtime} (history : list ProcessingResult)
  : list (string * scalar) :=
  let total := Z.of_nat (length history) in
  let successful := Z.of_nat (length (List.filter success history)) in
  let total_time := float_sum (processing_time <$> history) in
  if (total =? 0) then
    [("total_operations", SInt 0); ("success_rate", SFloat 0%float)]
  else
    [("total_operations", SInt total);
     ("successful_operations", SInt successful);
     ("success_rate", SFloat (int_truediv successful total));
     ("total_processing_time", SFloat total_time);
     ("average_processing_time", SFloat (float_truediv total_time total))].

(** Elements no two of which can be ordered: there are at least two, and
    [x < y] raises for any two of them taken at different positions. *)
Definition mutually_incomparable (l : list value) : Prop :=
  (2 <= length l)%nat /\
  forall (i j : nat) (x y : value),
    i <> j -> l !! i = Some x -> l !! j = Some y -> raised (py_lt x y) = true.

(** A result carries an error description: a non-empty text under the key
    ["error"] of its metadata. *)
Definition has_error (r : ProcessingResult) : Prop :=
  exists msg, dict_get (metadata r) "error" = Some (SStr msg) /\ msg <> "".

(** The invariant of [ProcessingResult] with the two consequences the
    specification draws from it. *)
Definition result_invariant (r : ProcessingResult) : Prop :=
  (success r = false <-> data r = VNone /\ has_error r) /\
  (success r = true -> data r <> VNone) /\
  (success r = false -> has_error r).

(** The pairs the comprehension of the dictionary transform yields. *)
Definition uppercased_items (d : dict) : list (string * value) :=
  (fun kv => (Str.upper (fst kv), snd kv)) <$> d.

(** No entry is lost or altered beyond the case of its key: [out] has as
    many entries as [d], and every entry of [d] is found in [out] under
    its key in upper case. *)
Definition entries_kept_uppercased (d out : dict) : Prop :=
  length out = length d /\
  forall k v, (k, v) ∈ d -> dict_get out (Str.upper k) = Some v.

(** Every leaf of [d] is found in [out] under the key of its path. *)
Definition leaves_under_path_keys (d out : dict) : Prop :=
  forall p v, leaf_at d p v -> dict_get out (path_key "_" "" p) = Some v.

(** ** A runtime for the examples

    [json.loads] on the three literal names of JSON, between optional
    white space, which it decodes as Python does; every other text is
    rejected by this instance, so the examples use it on [null] and on
    texts that are not JSON.  A set lists its elements in insertion order
    and floats are summed from left to right. *)
Definition json_space (c : ascii) : bool :=
  ((Str.code c =? 32) || (Str.code c =? 9) || (Str.code c =? 10)
   || (Str.code c =? 13))%N.

Fixpoint json_lstrip (s : string) : string :=
  match s with
  | String c s' => if json_space c then json_lstrip s' else s
  | EmptyString => EmptyString
  end.

Fixpoint json_rstrip (s : string) : string :=
  match s with
  | String c s' =>
      match json_rstrip s' with
      | EmptyString => if json_space c then EmptyString else String c EmptyString
      | r => String c r
      end
  | EmptyString => EmptyString
  end.

Definition json_literal (text : string) : decoded :=
  let body := json_rstrip (json_lstrip text) in
  if String.eqb body "null" then Decoded VNone
  else if String.eqb body "true" then Decoded (VBool true)
  else if String.eqb body "false" then Decoded (VBool false)
  else JSONDecodeError "Expecting value".

Definition example_runtime : Runtime := {|
  json_loads := json_literal;
  set_order := fun s => s;
  set_order_perm := fun s => Permutation_refl s;
  float_sum := fun l => fold_left PrimFloat.add l 0%float
|}.

(** [DataProcessor()] in an empty store. *)
Definition new_processor : DataProcessor * store :=
  DataProcessor_init None ∅.

(** The result of [process_data(data, operation)] on a new processor, in
    the runtime of the examples. *)
Definition example_call (input : value) (operation : string) : ProcessingResult :=
  fst (process_data (rt := example_runtime) (fst new_processor)
         input operation 0 1 (snd new_processor)).

(** The processor and the store after one successful call. *)
Definition processor_after_one_call : DataProcessor * store :=
  (fst new_processor,
   snd (process_data (rt := example_runtime) (fst new_processor)
          (VStr "ab") "transform" 0 1 (snd new_processor))).

(** ** [process_json_data] *)

(** The module-level [process_json_data]: the [except] clause logs and
    re-raises, so what the body raises reaches the caller. *)
Definition process_json_data {rt : Runtime} (data : value) : outcome value :=
  match data with
  | VStr text =>
      match json_loads text with
      | Decoded v => Return v
      | JSONDecodeError msg => Raise msg
      end
  | VDict d => Return (VDict d)
  | _ => Raise "Invalid data type for JSON processing"
  end.

(** ** Sequences of method calls *)

(** The public methods of a [DataProcessor], as a caller invokes them one
    after the other on one processor. *)
Inductive method : Type :=
| ProcessData (c : call)
| GetProcessingHistory
| ClearHistory
| GetStatistics.

Definition run_method {rt : Runtime} (self : DataProcessor) (σ : store)
  (m : method) : store :=
  match m with
  | ProcessData c =>
      snd (process_data self (call_data c) (call_operation c)
             (call_start c) (call_end c) σ)
  | GetProcessingHistory => snd (get_processing_history self σ)
  | ClearHistory => clear_history self σ
  | GetStatistics => σ
  end.

Definition run_methods {rt : Runtime} (self : DataProcessor)
  (ms : list method) (σ : store) : store :=
  fold_left (run_method self) ms σ.

(** ** Notions used by the further statements *)

(** The leaves of a mapping in depth-first iteration order, each with the
    key of its path: the pairs [_flatten_dict] would collect if no level
    built a dictionary of its own. *)
Fixpoint leaf_items_value (v : value) (parent_key sep : string) {struct v}
  : list (string * value) :=
  match v with
  | VDict data =>
      (fix loop (entries : list (string * value)) : list (string * value) :=
         match entries with
         | [] => []
         | (k, v') :: rest =>
             match v' with
             | VDict _ => leaf_items_value v' (new_key parent_key sep k) sep
             | _ => [(new_key parent_key sep k, v')]
             end ++ loop rest
         end) data
  | _ => []
  end.

Definition leaf_items (d : dict) (parent_key sep : string) : list (string * value) :=
  leaf_items_value (VDict d) parent_key sep.

(** A number: an [int] or a [bool]; [number_of] is its integer. *)
Definition is_number (v : value) : bool :=
  match as_int v with
  | Some _ => true
  | None => false
  end.

Definition number_of (v : value) : Z := default 0 (as_int v).

(** No two elements at different positions are equal for [==]. *)
Definition pairwise_unequal (l : list value) : Prop :=
  forall (i j : nat) (x y : value),
    i <> j -> l !! i = Some x -> l !! j = Some y -> py_eq x y = false.

(** Three calls for the examples: a text, [None], and a list to sort. *)
Definition example_calls : list call :=
  [ {| call_data := VStr "a"; call_operation := "transform";
       call_start := 0; call_end := 1 |};
    {| call_data := VNone; call_operation := "transform";
       call_start := 2; call_end := 3 |};
    {| call_data := VList [VInt 2; VInt 1]; call_operation := "sort";
       call_start := 4; call_end := 5 |} ].

(** The text of a [str] value. *)
Definition text_of (v : value) : string :=
  match v with
  | VStr s => s
  | _ => ""
  end.

Definition is_text (v : value) : bool :=
  match v with
  | VStr _ => true
  | _ => false
  end.

(** [a <= b] on texts: [b < a] does not hold. *)
Definition text_le (a b : string) : Prop := Str.ltb b a = false.

(** Each element differs, for [==] taken both ways, from the elements
    after it. *)
Fixpoint all_unequal (l : list value) : Prop :=
  match l with
  | [] => True
  | x :: l' =>
      Forall (fun y => py_eq x y = false /\ py_eq y x = false) l' /\
      all_unequal l'
  end.

(** What the two [replace] calls of the text operation [clean] make of
    one character, and of a text. *)
Definition clean_char (c : ascii) : ascii :=
  let c1 := if Ascii.eqb c Str.LF then Str.SP else c in
  if Ascii.eqb c1 Str.CR then Str.SP else c1.

Definition replace_newlines (s : string) : string :=
  Str.replace_char Str.CR Str.SP (Str.replace_char Str.LF Str.SP s).

(** ** The embedding on the documented examples *)

Example text_transform_example :
  data (example_call (VStr "hello") "transform") = VStr "HELLO".
Proof. reflexivity. Qed.

Example text_clean_example :
  dispatch (rt := example_runtime)
    (VStr ("  a" +:+ String Str.LF "b" +:+ String Str.CR (String Str.LF "c  ")))
    "clean"
  = Return (VStr "a b  c").
Proof. reflexivity. Qed.

Example list_filter_example :
  data (example_call (VList [VInt 1; VNone; VInt 2; VNone; VInt 3]) "filter") =
    VList [VInt 1; VInt 2; VInt 3].
Proof. reflexivity. Qed.

Example list_sort_example :
  data (example_call (VList [VInt 3; VInt 1; VInt 2]) "sort") =
    VList [VInt 1; VInt 2; VInt 3].
Proof. reflexivity. Qed.

Example list_sort_mixed_example :
  metadata (example_call (VList [VInt 3; VStr "a"]) "sort") =
    [("error", SStr "'<' not supported between instances of 'str' and 'int'")].
Proof. reflexivity. Qed.

Example list_unique_unhashable_example :
  metadata (example_call (VList [VInt 1; VList []]) "unique") =
    [("error", SStr "unhashable type: 'list'")].
Proof. reflexivity. Qed.

Example dict_transform_example :
  data (example_call (VDict [("name", VStr "John")]) "transform") =
    VDict [("NAME", VStr "John")].
Proof. reflexivity. Qed.

Example dict_filter_example :
  data (example_call (VDict [("a", VNone); ("b", VInt 1)]) "filter") =
    VDict [("b", VInt 1)].
Proof. reflexivity. Qed.

Example unsupported_type_example :
  metadata (example_call (VInt 42) "transform") =
    [("error", SStr "Unsupported data type: <class 'int'>")].
Proof. reflexivity. Qed.

Example metadata_example :
  keys (metadata (example_call (VStr "hello") "transform")) =
    ["operation"; "input_type"; "output_type"; "processing_time"].
Proof. reflexivity. Qed.

(** ** Dictionaries *)

Section dict_facts.
Context {V : Type}.
Implicit Types (d acc items : list (string * V)) (k : string) (v : V).

Lemma dict_get_elem_of d k v : dict_get d k = Some v -> (k, v) ∈ d.
Proof.
  induction d as [|[k' v'] d IH]; simpl; [done|].
  destruct (String.eqb_spec k' k) as [->|Hne].
  - intros [= ->]. apply list_elem_of_here.
  - intros Hd. apply list_elem_of_further, IH, Hd.
Qed.

Lemma dict_get_None d k : dict_get d k = None <-> k ∉ keys d.
Proof.
  unfold keys. induction d as [|[k' v'] d IH]; simpl.
  - split; [intros _; apply not_elem_of_nil | done].
  - rewrite not_elem_of_cons. destruct (String.eqb_spec k' k) as [->|Hne].
    + split; [done | intros [Hk _]; done].
    + rewrite IH. split; [intros Hd; split; [congruence | done] | intros [_ Hd]; done].
Qed.

Lemma dict_get_is_Some d k : is_Some (dict_get d k) <-> k ∈ keys d.
Proof.
  rewrite <- not_eq_None_Some, dict_get_None.
  split; [apply dec_stable | intros Hk Hn; exact (Hn Hk)].
Qed.

Lemma dict_get_NoDup d k v :
  NoDup (keys d) -> (k, v) ∈ d -> dict_get d k = Some v.
Proof.
  unfold keys. induction d as [|[k' v'] d IH]; simpl; intros Hnd Hin.
  - by apply elem_of_nil in Hin.
  - apply NoDup_cons in Hnd as [Hk' Hnd].
    apply elem_of_cons in Hin as [[= -> ->]|Hin].
    + by rewrite String.eqb_refl.
    + destruct (String.eqb_spec k' k) as [->|Hne]; [|by apply IH].
      exfalso. apply Hk'. apply (list_elem_of_fmap_2 fst) in Hin. exact Hin.
Qed.

Lemma dict_get_set d k v k' :
  dict_get (dict_set d k v) k' =
  if String.eqb k k' then Some v else dict_get d k'.
Proof.
  induction d as [|[k0 v0] d IH]; simpl; [done|].
  destruct (String.eqb_spec k0 k) as [->|Hne]; simpl.
  - destruct (String.eqb_spec k k'); done.
  - rewrite IH. destruct (String.eqb_spec k0 k') as [->|]; [|done].
    destruct (String.eqb_spec k k'); congruence.
Qed.

Lemma dict_set_fresh d k v : k ∉ keys d -> dict_set d k v = d ++ [(k, v)].
Proof.
  unfold keys. induction d as [|[k0 v0] d IH]; simpl; [done|].
  rewrite not_elem_of_cons. intros [Hne Hk].
  destruct (String.eqb_spec k0 k) as [->|_]; [done|]. by rewrite IH.
Qed.

Lemma dict_set_keys d k v :
  keys (dict_set d k v) = if decide (k ∈ keys d) then keys d else keys d ++ [k].
Proof.
  unfold keys. induction d as [|[k0 v0] d IH].
  - destruct (decide (k ∈ fst <$> ([] : list (string * V)))) as [Hin|_];
      [by apply elem_of_nil in Hin | done].
  - cbn [dict_set]. destruct (String.eqb_spec k0 k) as [->|Hne].
    + destruct (decide (k ∈ fst <$> (k, v0) :: d)) as [_|Hin]; [reflexivity|].
      exfalso. apply Hin. cbn. apply list_elem_of_here.
    + rewrite !fmap_cons, IH. cbn [fst].
      destruct (decide (k ∈ fst <$> d)) as [Hin|Hin];
        destruct (decide (k ∈ k0 :: (fst <$> d))) as [Hin'|Hin']; try done.
      * exfalso. apply Hin'. by apply list_elem_of_further.
      * apply elem_of_cons in Hin' as [->|Hin']; done.
Qed.

Lemma dict_set_NoDup d k v : NoDup (keys d) -> NoDup (keys (dict_set d k v)).
Proof.
  intros Hnd. rewrite dict_set_keys. destruct (decide (k ∈ keys d)); [done|].
  apply NoDup_app. split_and!; [done | | apply NoDup_singleton].
  intros x Hx ->%list_elem_of_singleton. done.
Qed.

Lemma dict_of_items_store items : dict_of_items items = store_items [] items.
Proof. reflexivity. Qed.

Lemma store_items_NoDup items acc :
  NoDup (keys acc) -> NoDup (keys (store_items acc items)).
Proof.
  revert acc. induction items as [|[k v] items IH]; simpl; intros acc Hnd; [done|].
  apply IH, dict_set_NoDup, Hnd.
Qed.

(** The last pair stored under a key is the one read back. *)
Lemma dict_get_store_items items acc k :
  dict_get (store_items acc items) k =
  match dict_get (reverse items) k with
  | Some v => Some v
  | None => dict_get acc k
  end.
Proof.
  revert acc. induction items as [|[k0 v0] items IH]; simpl; intros acc; [done|].
  unfold store_items in *. simpl. rewrite IH, reverse_cons.
  assert (Happ : forall l1 l2 : list (string * V),
             dict_get (l1 ++ l2) k =
             match dict_get l1 k with Some v => Some v | None => dict_get l2 k end).
  { induction l1 as [|[a b] l1 IHl]; simpl; intros l2; [done|].
    destruct (String.eqb a k); [done | apply IHl]. }
  rewrite Happ. destruct (dict_get (reverse items) k); [done|].
  simpl. rewrite dict_get_set. destruct (String.eqb k0 k); done.
Qed.

Lemma store_items_fresh items acc :
  NoDup (keys (acc ++ items)) -> store_items acc items = acc ++ items.
Proof.
  revert acc. induction items as [|[k v] items IH]; simpl; intros acc Hnd.
  - by rewrite app_nil_r.
  - unfold store_items in *. simpl. rewrite dict_set_fresh.
    + rewrite IH; rewrite <- app_assoc; done.
    + unfold keys in *. rewrite fmap_app in Hnd. apply NoDup_app in Hnd as (_ & Hd & _).
      intros Hk. apply (Hd k Hk). simpl. apply list_elem_of_here.
Qed.

Lemma dict_of_items_NoDup items : NoDup (keys (dict_of_items items)).
Proof. apply store_items_NoDup. apply NoDup_nil_2. Qed.

Lemma dict_get_dict_of_items items k :
  dict_get (dict_of_items items) k = dict_get (reverse items) k.
Proof.
  rewrite dict_of_items_store, dict_get_store_items.
  destruct (dict_get (reverse items) k); done.
Qed.

(** A list of pairs with distinct keys is stored as it is. *)
Lemma dict_of_items_id items : NoDup (keys items) -> dict_of_items items = items.
Proof.
  intros Hnd. rewrite dict_of_items_store, store_items_fresh; [done | exact Hnd].
Qed.

Lemma elem_of_dict_of_items items k v :
  (k, v) ∈ dict_of_items items -> (k, v) ∈ items.
Proof.
  intros Hin. apply (dict_get_NoDup _ _ _ (dict_of_items_NoDup items)) in Hin.
  rewrite dict_get_dict_of_items in Hin.
  apply dict_get_elem_of in Hin. by rewrite elem_of_reverse in Hin.
Qed.

Lemma keys_dict_of_items items k :
  k ∈ keys (dict_of_items items) <-> k ∈ keys items.
Proof.
  rewrite <- !dict_get_is_Some, dict_get_dict_of_items, !dict_get_is_Some.
  unfold keys. rewrite fmap_reverse. apply elem_of_reverse.
Qed.
End dict_facts.

(** ** [_flatten_dict] *)

Lemma _flatten_dict_unfold (data : dict) (parent_key sep : string) :
  _flatten_dict data parent_key sep =
  dict_of_items (flatten_items data parent_key sep).
Proof.
  unfold _flatten_dict. cbn [flatten_value]. f_equal.
  induction data as [|[k v] rest IH]; [done|].
  cbn [flatten_items]. rewrite <- IH. destruct v; reflexivity.
Qed.

Lemma flatten_items_app (d1 d2 : dict) (parent_key sep : string) :
  flatten_items (d1 ++ d2) parent_key sep =
  flatten_items d1 parent_key sep ++ flatten_items d2 parent_key sep.
Proof.
  induction d1 as [|[k v] d1 IH]; [done|].
  cbn [app flatten_items]. by rewrite IH, app_assoc.
Qed.

Lemma flatten_items_leaf_entry (k : string) (v : value) (parent_key sep : string) :
  is_dict v = false ->
  flatten_items [(k, v)] parent_key sep = [(new_key parent_key sep k, v)].
Proof. destruct v; done. Qed.

Lemma path_key_cons (sep parent_key k : string) (p : list string) :
  path_key sep parent_key (k :: p) = path_key sep (new_key parent_key sep k) p.
Proof. reflexivity. Qed.

Lemma leaf_at_weaken (d d' : dict) (p : list string) (v : value) :
  (forall e, e ∈ d -> e ∈ d') -> leaf_at d p v -> leaf_at d' p v.
Proof.
  intros Hsub Hleaf. destruct Hleaf as [d k v Hin Hv|d d0 k p v Hin Hleaf].
  - apply leaf_here; auto.
  - eapply leaf_below; eauto.
Qed.

Lemma leaf_at_inv (d : dict) (p : list string) (v : value) :
  leaf_at d p v ->
  (exists k, p = [k] /\ (k, v) ∈ d /\ is_dict v = false) \/
  (exists k d' q, p = k :: q /\ (k, VDict d') ∈ d /\ leaf_at d' q v).
Proof. destruct 1; [left | right]; eauto 7. Qed.

(** Every pair collected by the loop comes from a leaf, under the key of
    its path. *)
Lemma flatten_items_sound (sep : string) (d : dict) :
  forall parent_key k x,
    (k, x) ∈ flatten_items d parent_key sep ->
    exists p, leaf_at d p x /\ k = path_key sep parent_key p.
Proof.
  cut (forall v (d : dict), v = VDict d ->
       forall parent_key k x,
         (k, x) ∈ flatten_items d parent_key sep ->
         exists p, leaf_at d p x /\ k = path_key sep parent_key p).
  { intros Hcut. exact (Hcut (VDict d) d eq_refl). }
  clear d. intros v. induction v as [| | | | |d Hd] using value_ind;
    intros d0 Heq; try discriminate. injection Heq as <-.
  induction Hd as [|[k0 v0] d Hv0 Hd IH]; intros pk k x Hin.
  - by apply elem_of_nil in Hin.
  - change ((k0, v0) :: d) with ([(k0, v0)] ++ d) in Hin.
    rewrite flatten_items_app in Hin. apply elem_of_app in Hin as [Hin|Hin].
    + destruct (is_dict v0) eqn:Hdict.
      * destruct v0 as [| | | | |d']; try discriminate.
        cbn [flatten_items] in Hin. rewrite app_nil_r, _flatten_dict_unfold in Hin.
        apply elem_of_dict_of_items in Hin.
        destruct (Hv0 d' eq_refl _ _ _ Hin) as (p & Hleaf & ->).
        exists (k0 :: p). split; [|done].
        eapply leaf_below; [apply list_elem_of_here | exact Hleaf].
      * rewrite flatten_items_leaf_entry in Hin by done.
        apply list_elem_of_singleton in Hin as [= -> ->].
        exists [k0]. split; [|done].
        apply leaf_here; [apply list_elem_of_here | done].
    + destruct (IH pk k x Hin) as (p & Hleaf & ->).
      exists p. split; [|done].
      eapply leaf_at_weaken; [|exact Hleaf]. intros e He. by apply list_elem_of_further.
Qed.

(** The key of every leaf's path is among the keys collected. *)
Lemma flatten_items_complete (sep : string) (d : dict) (p : list string) (v : value) :
  leaf_at d p v ->
  forall parent_key, path_key sep parent_key p ∈ keys (flatten_items d parent_key sep).
Proof.
  induction 1 as [d k v Hin Hv|d d' k p v Hin Hleaf IH]; intros pk.
  - apply list_elem_of_split in Hin as (d1 & d2 & ->).
    change ((k, v) :: d2) with ([(k, v)] ++ d2).
    rewrite !flatten_items_app, flatten_items_leaf_entry by done.
    unfold keys. rewrite !fmap_app, !elem_of_app. right; left.
    apply list_elem_of_here.
  - apply list_elem_of_split in Hin as (d1 & d2 & ->).
    change ((k, VDict d') :: d2) with ([(k, VDict d')] ++ d2).
    rewrite !flatten_items_app. cbn [flatten_items]. rewrite app_nil_r.
    unfold keys. rewrite !fmap_app, !elem_of_app. right; left.
    rewrite path_key_cons, _flatten_dict_unfold.
    apply keys_dict_of_items, IH.
Qed.

(** No collected value is a mapping. *)
Lemma flatten_items_single_level (sep : string) (d : dict) :
  forall parent_key k x,
    (k, x) ∈ flatten_items d parent_key sep -> is_dict x = false.
Proof.
  intros pk k x Hin. apply flatten_items_sound in Hin as (p & Hleaf & _).
  clear k pk. induction Hleaf; done.
Qed.

Lemma _flatten_dict_elem_of (d : dict) (parent_key sep k : string) (x : value) :
  (k, x) ∈ _flatten_dict d parent_key sep ->
  (k, x) ∈ flatten_items d parent_key sep.
Proof. rewrite _flatten_dict_unfold. apply elem_of_dict_of_items. Qed.

(** A mapping with an empty mapping as a value: the entry adds nothing to
    the pairs collected. *)
Lemma flatten_items_empty_entry (d1 d2 : dict) (k parent_key sep : string) :
  flatten_items (d1 ++ (k, VDict []) :: d2) parent_key sep =
  flatten_items (d1 ++ d2) parent_key sep.
Proof.
  change ((k, VDict []) :: d2) with ([(k, VDict [])] ++ d2).
  rewrite !flatten_items_app. reflexivity.
Qed.

(** A flat list of entries is collected as it is. *)
Lemma flatten_items_flat (d : dict) (sep : string) :
  Forall (fun kv => is_dict (snd kv) = false) d -> flatten_items d "" sep = d.
Proof.
  induction 1 as [|[k v] d Hv Hd IH]; [done|].
  cbn [flatten_items]. rewrite IH. simpl in Hv. destruct v; done.
Qed.

(** The value read back under the key of a leaf's path is that of a leaf
    with the same key. *)
Lemma _flatten_dict_get_leaf (d : dict) (parent_key sep : string)
  (p : list string) (v : value) :
  leaf_at d p v ->
  exists p' v', leaf_at d p' v' /\
    path_key sep parent_key p' = path_key sep parent_key p /\
    dict_get (_flatten_dict d parent_key sep) (path_key sep parent_key p) = Some v'.
Proof.
  intros Hleaf. pose proof (flatten_items_complete sep d p v Hleaf parent_key) as Hk.
  rewrite <- (keys_dict_of_items (flatten_items d parent_key sep)) in Hk.
  rewrite <- _flatten_dict_unfold in Hk.
  apply dict_get_is_Some in Hk as [v' Hget].
  pose proof (dict_get_elem_of _ _ _ Hget) as Hin.
  apply _flatten_dict_elem_of, flatten_items_sound in Hin as (p' & Hleaf' & Hp').
  exists p', v'. done.
Qed.

(** ** Exceptions of the builtins *)

Lemma not_supported_nonempty (op : string) (x y : value) :
  not_supported op x y <> "".
Proof. unfold not_supported. simpl. discriminate. Qed.

Lemma py_lt_message (x y : value) (msg : string) :
  py_lt x y = Raise msg -> msg <> "".
Proof.
  revert y msg.
  induction x as [| | | |xs Hxs|] using value_ind; intros y msg;
    try (destruct y; simpl; intros [= <-]; apply not_supported_nonempty).
  destruct y as [| | | |ys|];
    try (simpl; intros [= <-]; apply not_supported_nonempty).
  cbn [py_lt]. revert ys.
  induction Hxs as [|a xs Ha Hxs IH]; intros [|b ys]; try discriminate.
  destruct (py_eq a b); [apply IH | apply Ha].
Qed.

Lemma insert_sorted_message (x : value) (l : list value) (msg : string) :
  insert_sorted x l = Raise msg -> msg <> "".
Proof.
  revert msg. induction l as [|y l IH]; intros msg; [discriminate|].
  cbn [insert_sorted]. destruct (py_lt x y) as [[|]|m] eqn:Hlt; cbn.
  - discriminate.
  - destruct (insert_sorted x l) as [r|m]; cbn; [discriminate|].
    intros [= <-]. by apply IH.
  - intros [= <-]. by apply py_lt_message in Hlt.
Qed.

(** Once an exception is raised, the rest of a loop is not run. *)
Lemma fold_left_raise {A B} (step : A -> B -> outcome A) (l : list B) (msg : string) :
  fold_left (fun acc x => a ← acc; step a x) l (Raise msg) = Raise msg.
Proof. induction l as [|x l IH]; [done | exact IH]. Qed.

Lemma fold_left_message {A B} (step : A -> B -> outcome A) (l : list B)
  (acc : outcome A) (msg : string) :
  (forall a x m, step a x = Raise m -> m <> "") ->
  (forall m, acc = Raise m -> m <> "") ->
  fold_left (fun acc x => a ← acc; step a x) l acc = Raise msg -> msg <> "".
Proof.
  intros Hstep. revert acc. induction l as [|x l IH]; intros acc Hacc; cbn.
  - apply Hacc.
  - apply IH. intros m. destruct acc as [a|m']; cbn.
    + apply Hstep.
    + intros [= <-]. by apply Hacc.
Qed.

Lemma py_sorted_message (data : list value) (msg : string) :
  py_sorted data = Raise msg -> msg <> "".
Proof.
  unfold py_sorted.
  apply (fold_left_message (fun l x => insert_sorted x l)); [|discriminate].
  intros a x m. apply insert_sorted_message.
Qed.

Lemma py_set_message (data : list value) (msg : string) :
  py_set data = Raise msg -> msg <> "".
Proof.
  unfold py_set.
  apply (fold_left_message
           (fun s x => if hashable x then Return (set_add s x)
                       else Raise ("unhashable type: '" +:+ type_name x +:+ "'")));
    [|discriminate].
  intros a x m. destruct (hashable x); [discriminate|]. intros [= <-]. discriminate.
Qed.

(** Sorting two or more elements compares the second with the first. *)
Lemma py_sorted_first_comparison (a b : value) (l : list value) :
  raised (py_lt b a) = true -> raised (py_sorted (a :: b :: l)) = true.
Proof.
  unfold py_sorted. cbn. destruct (py_lt b a) as [c|m]; [discriminate|]. cbn.
  intros _. by rewrite fold_left_raise.
Qed.

Lemma py_sorted_incomparable (l : list value) :
  mutually_incomparable l -> raised (py_sorted l) = true.
Proof.
  intros [Hlen Hinc]. destruct l as [|a [|b l]]; cbn in Hlen; try lia.
  apply py_sorted_first_comparison. apply (Hinc 1%nat 0%nat); done.
Qed.

(** ** [process_data] *)

Section process_data_facts.
Context {rt : Runtime}.
Implicit Types (self : DataProcessor) (σ : store) (input : value).

Lemma dispatch_message input operation msg :
  dispatch input operation = Raise msg -> msg <> "".
Proof.
  destruct input as [| | |s|l|d]; cbn;
    try (intros [= <-]; discriminate).
  - unfold _process_string_data.
    repeat (case String.eqb; [try discriminate|]); try discriminate.
    destruct (json_loads s); discriminate.
  - unfold _process_list_data.
    repeat (case String.eqb; [try discriminate|]); try discriminate.
    + destruct (py_sorted l) as [r|m] eqn:Hs; cbn; [discriminate|].
      intros [= <-]. by apply py_sorted_message in Hs.
    + destruct (py_set l) as [r|m] eqn:Hs; cbn; [discriminate|].
      intros [= <-]. by apply py_set_message in Hs.
  - unfold _process_dict_data.
    repeat (case String.eqb; [try discriminate|]); discriminate.
Qed.

(** The two exits of [process_data]. *)
Lemma process_data_returned self input operation t0 t1 σ result_data :
  dispatch input operation = Return result_data ->
  exists r,
    process_data self input operation t0 t1 σ =
      (r, list_append (processing_history self) r σ) /\
    success r = true /\ data r = result_data /\
    dict_get (metadata r) "error" = None.
Proof.
  intros Hd. unfold process_data. rewrite Hd. eexists. split; [reflexivity|].
  done.
Qed.

Lemma process_data_raised self input operation t0 t1 σ msg :
  dispatch input operation = Raise msg ->
  exists r,
    process_data self input operation t0 t1 σ = (r, σ) /\
    success r = false /\ data r = VNone /\
    metadata r = [("error", SStr msg)].
Proof.
  intros Hd. unfold process_data. rewrite Hd. eexists. done.
Qed.

Lemma list_read_append (l : loc) (x : ProcessingResult) σ :
  is_Some (σ !! l) ->
  list_read l (list_append l x σ) = list_read l σ ++ [x].
Proof.
  intros [h Hh]. unfold list_read, list_append.
  rewrite lookup_alter_eq, Hh. done.
Qed.

(** What one call adds to the history: the result when it is a success,
    nothing otherwise. *)
Lemma process_data_history self input operation t0 t1 σ :
  is_Some (σ !! processing_history self) ->
  let '(r, σ') := process_data self input operation t0 t1 σ in
  list_read (processing_history self) σ' =
  list_read (processing_history self) σ ++ (if success r then [r] else []).
Proof.
  intros Hl. destruct (dispatch input operation) as [v|msg] eqn:Hd.
  - destruct (process_data_returned self input operation t0 t1 σ v Hd)
      as (r & -> & -> & _). by apply list_read_append.
  - destruct (process_data_raised self input operation t0 t1 σ msg Hd)
      as (r & -> & -> & _). by rewrite app_nil_r.
Qed.
End process_data_facts.

(** ** The results of [process_data] *)

(** C1 (the code departs from the claim).  A call that fails is not
    recorded: on a new processor, a successful call followed by a call on
    an integer leaves one record in the history, and [get_statistics]
    counts one operation after two calls. *)
Theorem failed_call_is_not_recorded :
  let '(p, σ0) := new_processor in
  let '(r1, σ1) :=
    process_data (rt := example_runtime) p (VStr "ab") "transform" 0 1 σ0 in
  let '(r2, σ2) :=
    process_data (rt := example_runtime) p (VInt 42) "transform" 2 3 σ1 in
  success r1 = true /\ success r2 = false /\
  σ2 = σ1 /\
  list_read (processing_history p) σ2 = [r1] /\
  dict_get (get_statistics (rt := example_runtime) p σ2) "total_operations"
    = Some (SInt 1).
Proof. vm_compute. repeat split; reflexivity. Qed.

(** C2, as amended.  A result of [process_data] is a failure exactly when
    its data is [None] and its metadata holds a non-empty description
    under ["error"]. *)
Theorem failure_iff_no_data_and_error {rt : Runtime} (self : DataProcessor)
  (input : value) (operation : string) (t0 t1 : datetime) (σ : store) :
  let r := fst (process_data self input operation t0 t1 σ) in
  success r = false <-> data r = VNone /\ has_error r.
Proof.
  destruct (dispatch input operation) as [v|msg] eqn:Hd.
  - destruct (process_data_returned self input operation t0 t1 σ v Hd)
      as (r & -> & Hs & _ & Herr). cbn. rewrite Hs. split; [discriminate|].
    intros [_ (m & Hm & _)]. congruence.
  - destruct (process_data_raised self input operation t0 t1 σ msg Hd)
      as (r & -> & Hs & Hdata & Hmeta). cbn. split; [|done].
    intros _. split; [done|]. exists msg. rewrite Hmeta. split; [done|].
    by apply dispatch_message in Hd.
Qed.

(** C2, the claim as stated fails: the text [null] parses to [None], a
    successful result whose data is [None]. *)
Lemma successful_result_with_no_data :
  success (example_call (VStr "null") "parse") = true /\
  data (example_call (VStr "null") "parse") = VNone /\
  ~ result_invariant (example_call (VStr "null") "parse").
Proof.
  split_and!; [reflexivity..|]. intros (_ & Hdata & _). by apply Hdata.
Qed.

(** C3.  On a text, a list or a dictionary, an operation name that the
    shape's transform does not test for gives a successful result whose
    data is the input. *)
Theorem unsupported_operation_passes_through {rt : Runtime} (self : DataProcessor)
  (input : value) (operation : string) (t0 t1 : datetime) (σ : store) :
  supported_shape input = true ->
  operation ∉ enumerated_operations input ->
  let r := fst (process_data self input operation t0 t1 σ) in
  success r = true /\ data r = input.
Proof.
  intros Hshape Hop.
  assert (Hd : dispatch input operation = Return input).
  { destruct input as [| | |s|l|d]; try discriminate; cbn in Hop |- *;
      rewrite !not_elem_of_cons in Hop;
      [unfold _process_string_data | unfold _process_list_data
      | unfold _process_dict_data];
      repeat match goal with
             | |- context [String.eqb operation ?op] =>
                 replace (String.eqb operation op) with false
                   by (symmetry; apply String.eqb_neq; tauto)
             end; reflexivity. }
  destruct (process_data_returned self input operation t0 t1 σ input Hd)
    as (r & -> & Hs & Hdata & _). done.
Qed.

(** The pass-through on a list and the operation name ["reverse"]. *)
Lemma unsupported_operation_passes_through_witness :
  success (example_call (VList [VInt 2; VNone; VInt 1]) "reverse") = true /\
  data (example_call (VList [VInt 2; VNone; VInt 1]) "reverse") =
    VList [VInt 2; VNone; VInt 1].
Proof.
  unfold example_call.
  apply (unsupported_operation_passes_through (rt := example_runtime));
    [reflexivity|].
  cbn. rewrite !not_elem_of_cons. repeat split; try discriminate.
  apply not_elem_of_nil.
Defined.

(** C6.  [process_data] returns a result for every input (it is a total
    function; what the transforms raise is caught in it).  For an input
    that is no text, list or dictionary, and for a sort of mutually
    incomparable elements, the result is a failure with no data and an
    error description in its metadata. *)
Theorem failures_are_returned {rt : Runtime} (self : DataProcessor)
  (input : value) (operation : string) (t0 t1 : datetime) (σ : store) :
  supported_shape input = false \/
  (exists l, input = VList l /\ operation = "sort" /\ mutually_incomparable l) ->
  let r := fst (process_data self input operation t0 t1 σ) in
  success r = false /\ data r = VNone /\ has_error r.
Proof.
  intros Hfail.
  assert (Hd : exists msg, dispatch input operation = Raise msg).
  { destruct Hfail as [Hshape|(l & -> & -> & Hinc)].
    - destruct input; try discriminate; cbn; eauto.
    - cbn. unfold _process_list_data. cbn.
      apply py_sorted_incomparable in Hinc.
      destruct (py_sorted l) as [r|m]; [discriminate|]. cbn. eauto. }
  destruct Hd as [msg Hd].
  destruct (process_data_raised self input operation t0 t1 σ msg Hd)
    as (r & -> & Hs & Hdata & Hmeta). cbn. split_and!; [done..|].
  exists msg. rewrite Hmeta. split; [done|]. by apply dispatch_message in Hd.
Qed.

(** A boolean input, and the sort of an integer and a text. *)
Lemma failures_are_returned_witness :
  (success (example_call (VBool true) "transform") = false /\
   data (example_call (VBool true) "transform") = VNone /\
   has_error (example_call (VBool true) "transform")) /\
  (success (example_call (VList [VInt 3; VStr "a"]) "sort") = false /\
   data (example_call (VList [VInt 3; VStr "a"]) "sort") = VNone /\
   has_error (example_call (VList [VInt 3; VStr "a"]) "sort")).
Proof.
  unfold example_call. split.
  - apply (failures_are_returned (rt := example_runtime)). left. reflexivity.
  - apply (failures_are_returned (rt := example_runtime)). right.
    exists [VInt 3; VStr "a"].
    split; [reflexivity|]. split; [reflexivity|]. split; [cbn; lia|].
    intros [|[|i]] [|[|j]] x y Hij Hx Hy; cbn in Hx, Hy; try discriminate;
      try (exfalso; apply Hij; reflexivity);
      injection Hx as <-; injection Hy as <-; reflexivity.
Defined.

(** C8.  When [json.loads] rejects the text, the parse operation gives a
    successful result whose data is the fallback record. *)
Theorem parse_failure_gives_fallback {rt : Runtime} (self : DataProcessor)
  (text msg : string) (t0 t1 : datetime) (σ : store) :
  json_loads text = JSONDecodeError msg ->
  let r := fst (process_data self (VStr text) "parse" t0 t1 σ) in
  success r = true /\
  data r = VDict [("raw", VStr text); ("parsed", VBool false)].
Proof.
  intros Hjson.
  assert (Hd : dispatch (VStr text) "parse" =
               Return (VDict [("raw", VStr text); ("parsed", VBool false)])).
  { cbn. unfold _process_string_data. cbn. by rewrite Hjson. }
  destruct (process_data_returned self _ _ t0 t1 σ _ Hd)
    as (r & -> & Hs & Hdata & _). done.
Qed.

(** The fallback record of a text that is not JSON. *)
Lemma parse_failure_gives_fallback_witness :
  success (example_call (VStr "{not valid json") "parse") = true /\
  data (example_call (VStr "{not valid json") "parse") =
    VDict [("raw", VStr "{not valid json"); ("parsed", VBool false)].
Proof.
  unfold example_call.
  apply (parse_failure_gives_fallback (rt := example_runtime)
           _ "{not valid json" "Expecting value").
  reflexivity.
Defined.

(** ** History and statistics *)

Lemma fold_left_add_ones {A} (l : list A) (acc : Z) :
  fold_left Z.add ((fun _ => 1) <$> l) acc = acc + Z.of_nat (length l).
Proof.
  revert acc. induction l as [|x l IH]; intros acc; cbn [fmap list_fmap fold_left length].
  - lia.
  - rewrite IH. lia.
Qed.

Lemma count_successful_length (history : list ProcessingResult) :
  count_successful history = Z.of_nat (length (List.filter success history)).
Proof. unfold count_successful. by rewrite fold_left_add_ones. Qed.

Lemma list_read_clear (l : loc) (σ : store) : list_read l (list_clear l σ) = [].
Proof.
  unfold list_read, list_clear. rewrite lookup_alter_eq.
  by destruct (σ !! l).
Qed.

Lemma list_append_allocated (l : loc) (x : ProcessingResult) (σ : store) :
  is_Some (σ !! l) -> is_Some (list_append l x σ !! l).
Proof.
  intros [h Hh]. unfold list_append. rewrite lookup_alter_eq, Hh. by eexists.
Qed.

(** After any sequence of calls the history has grown by the successful
    results, in call order. *)
Lemma run_calls_history {rt : Runtime} (self : DataProcessor)
  (calls : list call) (σ : store) :
  is_Some (σ !! processing_history self) ->
  list_read (processing_history self) (snd (run_calls self calls σ)) =
  list_read (processing_history self) σ ++
  List.filter success (fst (run_calls self calls σ)).
Proof.
  revert σ. induction calls as [|c calls IH]; intros σ Hl; cbn [run_calls].
  - cbn. by rewrite app_nil_r.
  - destruct (dispatch (call_data c) (call_operation c)) as [v|msg] eqn:Hd.
    + destruct (process_data_returned self _ _ (call_start c) (call_end c) σ v Hd)
        as (r & -> & Hs & _).
      destruct (run_calls self calls _) as [rs σ2] eqn:Hrun.
      specialize (IH (list_append (processing_history self) r σ)
                    (list_append_allocated _ _ _ Hl)).
      rewrite Hrun in IH. cbn in IH |- *. rewrite Hs, IH.
      rewrite list_read_append by done. by rewrite <- app_assoc.
    + destruct (process_data_raised self _ _ (call_start c) (call_end c) σ msg Hd)
        as (r & -> & Hs & _).
      destruct (run_calls self calls σ) as [rs σ2] eqn:Hrun.
      specialize (IH σ Hl). rewrite Hrun in IH. cbn in IH |- *. by rewrite Hs.
Qed.

(** [total_operations] is the length of the history, empty or not. *)
Lemma get_statistics_total {rt : Runtime} (self : DataProcessor) (σ : store) :
  dict_get (get_statistics self σ) "total_operations" =
  Some (SInt (Z.of_nat (length (list_read (processing_history self) σ)))).
Proof.
  unfold get_statistics.
  by destruct (list_read (processing_history self) σ).
Qed.

(** C5.  [get_statistics] returns the statistics the specification
    describes, computed from the history, and the two-entry dictionary
    for an empty history once the history has been cleared. *)
Theorem get_statistics_meets_spec {rt : Runtime} (self : DataProcessor) (σ : store) :
  get_statistics self σ = statistics_spec (list_read (processing_history self) σ) /\
  get_statistics self (clear_history self σ) =
    [("total_operations", SInt 0); ("success_rate", SFloat 0%float)].
Proof.
  split.
  - unfold get_statistics, statistics_spec.
    destruct (list_read (processing_history self) σ) as [|r h]; [reflexivity|].
    rewrite count_successful_length.
    destruct (Z.eqb_spec (Z.of_nat (length (r :: h))) 0) as [Hz|_]; [|reflexivity].
    cbn [length] in Hz. lia.
  - unfold get_statistics, clear_history. by rewrite list_read_clear.
Qed.

(** C9.  The list returned by [get_processing_history] is a new list
    object holding the records of the history: changing it in place, in
    any way, leaves the history and the statistics as they were. *)
Theorem get_processing_history_is_a_copy {rt : Runtime} (self : DataProcessor)
  (σ : store) (f : list ProcessingResult -> list ProcessingResult) :
  is_Some (σ !! processing_history self) ->
  let '(l, σ') := get_processing_history self σ in
  l <> processing_history self /\
  list_read l σ' = list_read (processing_history self) σ /\
  list_read (processing_history self) (list_mutate f l σ') =
    list_read (processing_history self) σ /\
  get_statistics self (list_mutate f l σ') = get_statistics self σ.
Proof.
  intros Hl. unfold get_processing_history, list_copy.
  set (l := fresh (dom σ)).
  assert (Hne : l <> processing_history self).
  { intros Heq. apply (is_fresh (dom σ)). change (l ∈ dom σ). rewrite Heq.
    by apply elem_of_dom. }
  assert (Hread : list_read (processing_history self)
                    (list_mutate f l (<[l:=list_read (processing_history self) σ]> σ)) =
                  list_read (processing_history self) σ).
  { unfold list_read, list_mutate.
    by rewrite lookup_alter_ne, lookup_insert_ne. }
  split_and!; [done | | done |].
  - unfold list_read at 1. by rewrite lookup_insert_eq.
  - unfold get_statistics. by rewrite Hread.
Qed.

(** After one recorded call: emptying the copy changes no statistics. *)
Lemma get_processing_history_is_a_copy_witness :
  let '(p, σ) := processor_after_one_call in
  let '(l, σ') := get_processing_history p σ in
  length (list_read (processing_history p) σ) = 1%nat /\
  l <> processing_history p /\
  list_read l σ' = list_read (processing_history p) σ /\
  list_read (processing_history p) (list_mutate (fun _ => []) l σ') =
    list_read (processing_history p) σ /\
  get_statistics (rt := example_runtime) p (list_mutate (fun _ => []) l σ') =
    get_statistics (rt := example_runtime) p σ.
Proof.
  split; [reflexivity|].
  apply (get_processing_history_is_a_copy (rt := example_runtime)
           (fst processor_after_one_call) (snd processor_after_one_call)
           (fun _ => [])).
  vm_compute. eexists. reflexivity.
Defined.

(** ** The dictionary transform *)

Lemma keys_uppercased_items (d : dict) :
  keys (uppercased_items d) = Str.upper <$> keys d.
Proof.
  unfold keys, uppercased_items. rewrite <- !list_fmap_compose. done.
Qed.

(** C7, as amended.  The transform of a dictionary succeeds; its output
    has the keys of the input in upper case and, under each, the value of
    an input entry with that key in upper case: the last one.  When no
    two keys of the input agree in upper case, every entry is kept, with
    its key in upper case and its value unchanged, in the same order. *)
Theorem dict_transform_uppercases_keys {rt : Runtime} (self : DataProcessor)
  (d : dict) (t0 t1 : datetime) (σ : store) :
  let r := fst (process_data self (VDict d) "transform" t0 t1 σ) in
  exists out : dict,
    success r = true /\ data r = VDict out /\
    (forall K, K ∈ keys out <-> exists k, k ∈ keys d /\ K = Str.upper k) /\
    (forall K v, dict_get out K = Some v ->
                 exists k, (k, v) ∈ d /\ K = Str.upper k) /\
    (forall K, dict_get out K = dict_get (reverse (uppercased_items d)) K) /\
    (NoDup (Str.upper <$> keys d) ->
     out = uppercased_items d /\ entries_kept_uppercased d out).
Proof.
  assert (Hd : dispatch (VDict d) "transform" =
               Return (VDict (dict_of_items (uppercased_items d)))) by reflexivity.
  destruct (process_data_returned self _ _ t0 t1 σ _ Hd)
    as (r & -> & Hs & Hdata & _). cbn.
  exists (dict_of_items (uppercased_items d)). split_and!; [done..| | | |].
  - intros K. rewrite keys_dict_of_items, keys_uppercased_items.
    rewrite list_elem_of_fmap. split; intros (k & Hk1 & Hk2); eauto.
  - intros K v Hget. apply dict_get_elem_of, elem_of_dict_of_items in Hget.
    unfold uppercased_items in Hget.
    apply list_elem_of_fmap in Hget as ([k v'] & [= -> ->] & Hin). eauto.
  - intros K. apply dict_get_dict_of_items.
  - intros Hnd. rewrite <- keys_uppercased_items in Hnd.
    rewrite (dict_of_items_id _ Hnd). split; [done|]. split.
    + unfold uppercased_items. by rewrite length_fmap.
    + intros k v Hin. apply (dict_get_NoDup _ _ _ Hnd).
      unfold uppercased_items. apply list_elem_of_fmap. by exists (k, v).
Qed.

(** Two keys that differ in upper case: both entries are kept. *)
Lemma dict_transform_uppercases_keys_witness :
  data (example_call (VDict [("name", VStr "John"); ("age", VInt 30)]) "transform") =
    VDict [("NAME", VStr "John"); ("AGE", VInt 30)] /\
  entries_kept_uppercased [("name", VStr "John"); ("age", VInt 30)]
    [("NAME", VStr "John"); ("AGE", VInt 30)].
Proof.
  unfold example_call.
  destruct (dict_transform_uppercases_keys (rt := example_runtime)
              (fst new_processor)
              [("name", VStr "John"); ("age", VInt 30)] 0 1
              (snd new_processor))
    as (out & _ & Hdata & _ & _ & _ & Hkept).
  destruct Hkept as [-> Hk].
  - cbn. rewrite !NoDup_cons, !not_elem_of_cons. split_and!; try discriminate;
      try apply not_elem_of_nil. apply NoDup_nil_2.
  - split; [exact Hdata | exact Hk].
Defined.

(** C7, the claim as stated fails: of two keys that agree in upper case,
    one entry is lost. *)
Lemma dict_transform_loses_an_entry :
  data (example_call (VDict [("a", VInt 1); ("A", VInt 2)]) "transform") =
    VDict [("A", VInt 2)] /\
  ~ entries_kept_uppercased [("a", VInt 1); ("A", VInt 2)] [("A", VInt 2)].
Proof.
  split; [reflexivity|]. intros [Hlen _]. discriminate.
Qed.

(** ** Flattening *)

(** C4, as amended.  On the nested example [_flatten_dict] gives the two
    joined keys; a dictionary none of whose values is a dictionary is
    returned as it is; every entry of the output is a leaf of the input
    under the key of its path, and no value of the output is a
    dictionary; and a leaf is found under the key of its path provided
    the leaves whose paths have the same key all have its value. *)
Theorem flatten_dict_leaves :
  _flatten_dict [("a", VDict [("b", VInt 1); ("c", VInt 2)])] "" "_" =
    [("a_b", VInt 1); ("a_c", VInt 2)] /\
  (forall d : dict,
      NoDup (keys d) -> Forall (fun kv => is_dict (snd kv) = false) d ->
      _flatten_dict d "" "_" = d) /\
  (forall (d : dict) (k : string) (x : value),
      dict_get (_flatten_dict d "" "_") k = Some x ->
      is_dict x = false /\ exists p, leaf_at d p x /\ k = path_key "_" "" p) /\
  (forall (d : dict) (p : list string) (v : value),
      leaf_at d p v ->
      (forall p' v', leaf_at d p' v' ->
                     path_key "_" "" p' = path_key "_" "" p -> v' = v) ->
      dict_get (_flatten_dict d "" "_") (path_key "_" "" p) = Some v).
Proof.
  split_and!.
  - reflexivity.
  - intros d Hnd Hflat.
    rewrite _flatten_dict_unfold, flatten_items_flat by done.
    by apply dict_of_items_id.
  - intros d k x Hget. apply dict_get_elem_of, _flatten_dict_elem_of in Hget.
    split; [by eapply flatten_items_single_level|].
    by apply flatten_items_sound in Hget.
  - intros d p v Hleaf Hsame.
    destruct (_flatten_dict_get_leaf d "" "_" p v Hleaf) as (p' & v' & Hleaf' & Hp' & ->).
    f_equal. by eapply Hsame.
Qed.

(** A flat dictionary, and a leaf one level down. *)
Lemma flatten_dict_leaves_witness :
  _flatten_dict [("x", VInt 1)] "" "_" = [("x", VInt 1)] /\
  dict_get (_flatten_dict [("a", VDict [("b", VInt 1)])] "" "_")
           (path_key "_" "" ["a"; "b"]) = Some (VInt 1).
Proof.
  destruct flatten_dict_leaves as (_ & Hflat & _ & Hleaf). split.
  - apply Hflat.
    + cbn. apply NoDup_singleton.
    + repeat constructor.
  - apply Hleaf.
    + eapply leaf_below; [apply list_elem_of_here|].
      apply leaf_here; [apply list_elem_of_here | reflexivity].
    + intros p' v' Hleaf' _.
      apply leaf_at_inv in Hleaf' as [(k & _ & Hin & Hv)|(k & d' & q & _ & Hin & Hq)];
        apply list_elem_of_singleton in Hin as [= -> Hval]; subst; [discriminate|].
      apply leaf_at_inv in Hq as [(k & _ & Hin & _)|(k & d' & q' & _ & Hin & _)];
        by apply list_elem_of_singleton in Hin as [= -> Hval].
Defined.

(** C4, the claim as stated fails: two leaves whose paths have the same
    key; the first is not found under it. *)
Lemma flatten_dict_key_collision :
  _flatten_dict [("a_b", VInt 1); ("a", VDict [("b", VInt 2)])] "" "_" =
    [("a_b", VInt 2)] /\
  ~ leaves_under_path_keys
      [("a_b", VInt 1); ("a", VDict [("b", VInt 2)])]
      (_flatten_dict [("a_b", VInt 1); ("a", VDict [("b", VInt 2)])] "" "_").
Proof.
  split; [reflexivity|]. intros Hleaves.
  assert (Hleaf : leaf_at [("a_b", VInt 1); ("a", VDict [("b", VInt 2)])]
                    ["a_b"] (VInt 1)).
  { apply leaf_here; [apply list_elem_of_here | reflexivity]. }
  apply Hleaves in Hleaf. discriminate.
Qed.

(** C10, as amended.  An entry whose value is an empty dictionary adds
    nothing: the output is that of the input without the entry (so
    [{"a": {}}] flattens to [{}]), and the key of the entry is absent
    from the output when no leaf of the other entries has it as the key
    of its path. *)
Theorem flatten_dict_empty_mapping_entry (d1 d2 : dict) (k parent_key sep : string) :
  _flatten_dict [("a", VDict [])] "" "_" = [] /\
  _flatten_dict (d1 ++ (k, VDict []) :: d2) parent_key sep =
    _flatten_dict (d1 ++ d2) parent_key sep /\
  ((forall p v, leaf_at (d1 ++ d2) p v ->
                path_key sep parent_key p <> new_key parent_key sep k) ->
   dict_get (_flatten_dict (d1 ++ (k, VDict []) :: d2) parent_key sep)
            (new_key parent_key sep k) = None).
Proof.
  assert (Heq : _flatten_dict (d1 ++ (k, VDict []) :: d2) parent_key sep =
                _flatten_dict (d1 ++ d2) parent_key sep).
  { by rewrite !_flatten_dict_unfold, flatten_items_empty_entry. }
  split_and!; [reflexivity | exact Heq |].
  intros Hother. rewrite Heq.
  destruct (dict_get _ _) as [x|] eqn:Hget; [|done].
  apply dict_get_elem_of, _flatten_dict_elem_of, flatten_items_sound in Hget
    as (p & Hleaf & Hp).
  exfalso. by eapply Hother.
Qed.

(** An empty dictionary next to a leaf under another key. *)
Lemma flatten_dict_empty_mapping_entry_witness :
  _flatten_dict [("a", VDict []); ("b", VInt 1)] "" "_" =
    _flatten_dict [("b", VInt 1)] "" "_" /\
  dict_get (_flatten_dict [("a", VDict []); ("b", VInt 1)] "" "_") "a" = None.
Proof.
  destruct (flatten_dict_empty_mapping_entry [] [("b", VInt 1)] "a" "" "_")
    as (_ & Heq & Habsent).
  split; [exact Heq|]. apply Habsent.
  intros p v Hleaf.
  apply leaf_at_inv in Hleaf as [(k & -> & Hin & Hv)|(k & d' & q & _ & Hin & _)];
    apply list_elem_of_singleton in Hin as [= -> Hval]; subst; discriminate.
Defined.

(** C10, the claim as stated fails: the key of an entry with an empty
    dictionary is in the output when another path joins to it. *)
Lemma flatten_dict_empty_mapping_key_present :
  _flatten_dict [("x_y", VDict []); ("x", VDict [("y", VInt 1)])] "" "_" =
    [("x_y", VInt 1)] /\
  ("x_y", VDict []) ∈ [("x_y", VDict []); ("x", VDict [("y", VInt 1)])] /\
  "x_y" ∈ keys (_flatten_dict [("x_y", VDict []); ("x", VDict [("y", VInt 1)])] "" "_").
Proof. split_and!; [reflexivity | apply list_elem_of_here..]. Qed.

(** ** Sequences of calls on a processor *)

Section method_facts.
Context {rt : Runtime}.
Implicit Types (self : DataProcessor) (σ : store) (m : method) (l : loc).

(** A method changes no list but the history of its processor, and
    frees none. *)
Lemma run_method_frame self σ m l :
  is_Some (σ !! l) -> l <> processing_history self ->
  list_read l (run_method self σ m) = list_read l σ.
Proof.
  intros Hl Hne. destruct m as [c| | |]; cbn [run_method].
  - unfold process_data.
    destruct (dispatch (call_data c) (call_operation c)); cbn; [|done].
    unfold list_read, list_append. by rewrite lookup_alter_ne.
  - unfold get_processing_history, list_copy.
    set (l' := fresh (dom σ)). cbn [snd]. unfold list_read at 1.
    rewrite lookup_insert_ne; [done|].
    intros Heq. apply (is_fresh (dom σ)). change (l' ∈ dom σ).
    rewrite Heq. by apply elem_of_dom.
  - unfold clear_history, list_clear, list_read. by rewrite lookup_alter_ne.
  - done.
Qed.

Lemma run_method_allocated self σ m l :
  is_Some (σ !! l) -> is_Some (run_method self σ m !! l).
Proof.
  intros Hl. destruct m as [c| | |]; cbn [run_method].
  - unfold process_data.
    destruct (dispatch (call_data c) (call_operation c)); cbn; [|done].
    unfold list_append. rewrite lookup_alter. case_decide; [|done].
    subst. destruct Hl as [h ->]. by eexists.
  - unfold get_processing_history, list_copy. cbn [snd].
    rewrite lookup_insert. case_decide; [by eexists | done].
  - unfold clear_history, list_clear. rewrite lookup_alter.
    case_decide; [|done]. subst. destruct Hl as [h ->]. by eexists.
  - done.
Qed.

Lemma run_methods_allocated self ms σ l :
  is_Some (σ !! l) -> is_Some (run_methods self ms σ !! l).
Proof.
  revert σ. induction ms as [|m ms IH]; intros σ Hl; [done|].
  apply IH. by apply run_method_allocated.
Qed.

Lemma run_methods_frame self ms σ l :
  is_Some (σ !! l) -> l <> processing_history self ->
  list_read l (run_methods self ms σ) = list_read l σ.
Proof.
  revert σ. induction ms as [|m ms IH]; intros σ Hl Hne; [done|].
  cbn. unfold run_methods in IH. rewrite IH.
  - by apply run_method_frame.
  - by apply run_method_allocated.
  - done.
Qed.

(** What a method leaves in the history. *)
Lemma run_method_history self σ m :
  is_Some (σ !! processing_history self) ->
  list_read (processing_history self) (run_method self σ m) =
  match m with
  | ProcessData c =>
      let r := fst (process_data self (call_data c) (call_operation c)
                      (call_start c) (call_end c) σ) in
      list_read (processing_history self) σ ++ (if success r then [r] else [])
  | ClearHistory => []
  | _ => list_read (processing_history self) σ
  end.
Proof.
  intros Hl. destruct m as [c| | |]; cbn [run_method].
  - pose proof (process_data_history self (call_data c) (call_operation c)
                  (call_start c) (call_end c) σ Hl) as Hh.
    by destruct (process_data self _ _ _ _ σ) as [r σ'].
  - unfold get_processing_history, list_copy.
    set (l' := fresh (dom σ)). cbn [snd]. unfold list_read at 1.
    rewrite lookup_insert_ne; [done|].
    intros Heq. apply (is_fresh (dom σ)). change (l' ∈ dom σ).
    rewrite Heq. by apply elem_of_dom.
  - apply list_read_clear.
  - done.
Qed.

Lemma run_methods_successful self ms σ :
  is_Some (σ !! processing_history self) ->
  Forall (fun r => success r = true) (list_read (processing_history self) σ) ->
  Forall (fun r => success r = true)
    (list_read (processing_history self) (run_methods self ms σ)).
Proof.
  revert σ. induction ms as [|m ms IH]; intros σ Hl Hall; [done|].
  cbn. apply IH; [by apply run_method_allocated|].
  rewrite run_method_history by done. destruct m as [c| | |]; try done.
  cbn. apply Forall_app. split; [done|].
  destruct (success _) eqn:Hs; [|done]. by repeat constructor.
Qed.

Lemma filter_all_successful (h : list ProcessingResult) :
  Forall (fun r => success r = true) h -> List.filter success h = h.
Proof.
  induction 1 as [|r h Hr Hh IH]; [done|]. cbn. by rewrite Hr, IH.
Qed.

Lemma init_allocated (cfg : option dict) σ :
  (snd (DataProcessor_init cfg σ)) !!
    processing_history (fst (DataProcessor_init cfg σ)) = Some [].
Proof. unfold DataProcessor_init. cbn. apply lookup_insert_eq. Qed.
End method_facts.

Lemma run_calls_length {rt : Runtime} (self : DataProcessor)
  (calls : list call) (σ : store) :
  length (fst (run_calls self calls σ)) = length calls.
Proof.
  revert σ. induction calls as [|c calls IH]; intros σ; cbn [run_calls]; [done|].
  destruct (process_data self _ _ _ _ σ) as [r σ1].
  specialize (IH σ1). destruct (run_calls self calls σ1) as [rs σ2].
  cbn in IH |- *. by rewrite IH.
Qed.

(** X1.  A sequence of [process_data] calls returns one result per call
    and adds to the history the successful ones only, in call order; the
    [total_operations] of [get_statistics] counts the records of the
    history, so the failed calls are not counted. *)
Theorem history_holds_the_successful_results {rt : Runtime}
  (self : DataProcessor) (calls : list call) (σ : store) :
  is_Some (σ !! processing_history self) ->
  let '(rs, σ') := run_calls self calls σ in
  length rs = length calls /\
  list_read (processing_history self) σ' =
    list_read (processing_history self) σ ++ List.filter success rs /\
  dict_get (get_statistics self σ') "total_operations" =
    Some (SInt (Z.of_nat (length (list_read (processing_history self) σ)
                          + length (List.filter success rs)))).
Proof.
  intros Hl. pose proof (run_calls_history self calls σ Hl) as Hh.
  pose proof (run_calls_length self calls σ) as Hlen.
  destruct (run_calls self calls σ) as [rs σ']. cbn in Hh, Hlen.
  split_and!; [done..|].
  by rewrite get_statistics_total, Hh, length_app.
Qed.

(** Three calls on a new processor, the second one failing. *)
Lemma history_holds_the_successful_results_witness :
  let '(rs, σ') :=
    run_calls (rt := example_runtime) (fst new_processor) example_calls
      (snd new_processor) in
  length rs = length example_calls /\
  list_read (processing_history (fst new_processor)) σ' =
    list_read (processing_history (fst new_processor)) (snd new_processor)
    ++ List.filter success rs /\
  dict_get (get_statistics (rt := example_runtime) (fst new_processor) σ')
    "total_operations" =
    Some (SInt (Z.of_nat
      (length (list_read (processing_history (fst new_processor))
                 (snd new_processor))
       + length (List.filter success rs)))).
Proof.
  refine (history_holds_the_successful_results (rt := example_runtime)
            (fst new_processor) example_calls (snd new_processor) _).
  vm_compute. eexists. reflexivity.
Defined.

(** X2.  Whatever methods are called on a processor after its creation,
    every record of its history is a success; so whenever
    [get_statistics] reports [successful_operations], it equals
    [total_operations]. *)
Theorem recorded_results_are_successful {rt : Runtime}
  (cfg : option dict) (σ0 : store) (ms : list method) :
  let '(p, σ) := DataProcessor_init cfg σ0 in
  let σ' := run_methods p ms σ in
  Forall (fun r => success r = true) (list_read (processing_history p) σ') /\
  forall n,
    dict_get (get_statistics p σ') "successful_operations" = Some n ->
    dict_get (get_statistics p σ') "total_operations" = Some n.
Proof.
  pose proof (init_allocated cfg σ0) as Hinit.
  destruct (DataProcessor_init cfg σ0) as [p σ]. cbn [fst snd] in Hinit.
  assert (Hall : Forall (fun r => success r = true)
                   (list_read (processing_history p) (run_methods p ms σ))).
  { apply run_methods_successful; [by eexists|].
    unfold list_read. by rewrite Hinit. }
  cbn zeta. split; [done|]. intros n. unfold get_statistics.
  destruct (list_read (processing_history p) (run_methods p ms σ))
    as [|r h] eqn:Hh; [discriminate|].
  cbv beta iota zeta. rewrite count_successful_length.
  rewrite (filter_all_successful (r :: h)) by done.
  cbn. by intros [= <-].
Qed.

(** After the three example calls: two records, both successes. *)
Lemma recorded_results_are_successful_witness :
  dict_get
    (get_statistics (rt := example_runtime) (fst new_processor)
       (run_methods (rt := example_runtime) (fst new_processor)
          (ProcessData <$> example_calls) (snd new_processor)))
    "total_operations" = Some (SInt 2).
Proof.
  refine (proj2 (recorded_results_are_successful (rt := example_runtime)
                   None ∅ (ProcessData <$> example_calls)) (SInt 2) _).
  reflexivity.
Defined.

(** X3.  The list returned by [get_processing_history] is a snapshot:
    whatever methods are called on the processor afterwards, it keeps
    the records the history had. *)
Theorem returned_history_is_a_snapshot {rt : Runtime}
  (self : DataProcessor) (σ : store) (ms : list method) :
  is_Some (σ !! processing_history self) ->
  let '(l, σ1) := get_processing_history self σ in
  list_read l (run_methods self ms σ1) = list_read (processing_history self) σ.
Proof.
  intros Hl. unfold get_processing_history, list_copy.
  set (l := fresh (dom σ)).
  assert (Hne : l <> processing_history self).
  { intros Heq. apply (is_fresh (dom σ)). change (l ∈ dom σ). rewrite Heq.
    by apply elem_of_dom. }
  rewrite run_methods_frame; [| |done].
  - unfold list_read at 1. by rewrite lookup_insert_eq.
  - rewrite lookup_insert_eq. by eexists.
Qed.

(** The copy taken after one recorded call survives [clear_history] and
    a further call. *)
Lemma returned_history_is_a_snapshot_witness :
  let '(l, σ1) :=
    get_processing_history (fst processor_after_one_call)
      (snd processor_after_one_call) in
  list_read l
    (run_methods (rt := example_runtime) (fst processor_after_one_call)
       [ClearHistory;
        ProcessData {| call_data := VStr "b"; call_operation := "clean";
                       call_start := 2; call_end := 3 |}] σ1) =
  list_read (processing_history (fst processor_after_one_call))
    (snd processor_after_one_call).
Proof.
  refine (returned_history_is_a_snapshot (rt := example_runtime)
            (fst processor_after_one_call) (snd processor_after_one_call) _ _).
  vm_compute. eexists. reflexivity.
Defined.

(** X4.  Two processors created one after the other have histories of
    their own: whatever methods are called on one, the history of the
    other stays empty and its statistics are those of an empty history. *)
Theorem processors_do_not_share_history {rt : Runtime}
  (cfg1 cfg2 : option dict) (σ0 : store) (ms : list method) :
  let '(p1, σ1) := DataProcessor_init cfg1 σ0 in
  let '(p2, σ2) := DataProcessor_init cfg2 σ1 in
  processing_history p1 <> processing_history p2 /\
  list_read (processing_history p2) (run_methods p1 ms σ2) = [] /\
  list_read (processing_history p1) (run_methods p2 ms σ2) = [] /\
  get_statistics p2 (run_methods p1 ms σ2) =
    [("total_operations", SInt 0); ("success_rate", SFloat 0%float)].
Proof.
  pose proof (init_allocated cfg1 σ0) as H1.
  destruct (DataProcessor_init cfg1 σ0) as [p1 σ1]. cbn [fst snd] in H1.
  pose proof (init_allocated cfg2 σ1) as H2.
  assert (Hne : processing_history p1 <>
                processing_history (fst (DataProcessor_init cfg2 σ1))).
  { unfold DataProcessor_init. cbn [fst processing_history]. intros Heq.
    assert (Hin : processing_history p1 ∈ dom σ1) by (apply elem_of_dom; by eexists).
    rewrite Heq in Hin. exact (is_fresh (dom σ1) Hin). }
  assert (H1' : snd (DataProcessor_init cfg2 σ1) !! processing_history p1 = Some []).
  { unfold DataProcessor_init in Hne |- *.
    cbn [fst snd processing_history] in Hne |- *.
    by rewrite lookup_insert_ne. }
  destruct (DataProcessor_init cfg2 σ1) as [p2 σ2]. cbn [fst snd] in *.
  assert (Hr2 : list_read (processing_history p2) (run_methods p1 ms σ2) = []).
  { rewrite run_methods_frame; [| by eexists | done].
    unfold list_read. by rewrite H2. }
  split_and!; [done | done | |].
  - rewrite run_methods_frame; [| by eexists | done].
    unfold list_read. by rewrite H1'.
  - unfold get_statistics. by rewrite Hr2.
Qed.

(** ** The three transforms *)

Lemma upper_char_idem (c : ascii) :
  Str.upper_char (Str.upper_char c) = Str.upper_char c.
Proof.
  destruct c as [b0 b1 b2 b3 b4 b5 b6 b7].
  destruct b0, b1, b2, b3, b4, b5, b6, b7; reflexivity.
Qed.

Lemma upper_idem (s : string) : Str.upper (Str.upper s) = Str.upper s.
Proof.
  induction s as [|c s IH]; [done|]. cbn. by rewrite upper_char_idem, IH.
Qed.

Lemma upper_length (s : string) : String.length (Str.upper s) = String.length s.
Proof. induction s as [|c s IH]; [done|]. cbn. by rewrite IH. Qed.

Section transform_facts.
Context {rt : Runtime}.
Implicit Types (self : DataProcessor) (σ : store) (input : value).


(** Except for the parse of a text, a transform returns a value of
    the type of its input. *)
Lemma dispatch_type_name input operation v :
  dispatch input operation = Return v ->
  (forall text, input = VStr text -> operation <> "parse") ->
  type_name v = type_name input.
Proof.
  destruct input as [| | |s|l|d]; cbn; try discriminate.
  - intros Hd Hop. specialize (Hop s eq_refl). revert Hd.
    unfold _process_string_data.
    destruct (String.eqb_spec operation "transform"); [by intros [= <-]|].
    destruct (String.eqb_spec operation "parse"); [done|].
    destruct (String.eqb operation "clean"); by intros [= <-].
  - intros Hd _. revert Hd. unfold _process_list_data.
    repeat (case String.eqb; [try by intros [= <-]|]); try by intros [= <-].
    + destruct (py_sorted l); cbn; [by intros [= <-] | discriminate].
    + destruct (py_set l); cbn; [by intros [= <-] | discriminate].
  - intros Hd _. revert Hd. unfold _process_dict_data.
    repeat (case String.eqb; [try by intros [= <-]|]); by intros [= <-].
Qed.

Lemma uppercased_items_fixed (d : dict) :
  Forall (fun k => Str.upper k = k) (keys d) -> uppercased_items d = d.
Proof.
  unfold keys, uppercased_items.
  induction d as [|[k v] d IH]; cbn; [done|].
  intros [Hk Hd]%Forall_cons. cbn in Hk. by rewrite Hk, IH.
Qed.

Lemma dict_transform_idem (d : dict) :
  dict_of_items (uppercased_items (dict_of_items (uppercased_items d))) =
  dict_of_items (uppercased_items d).
Proof.
  rewrite uppercased_items_fixed; [apply dict_of_items_id, dict_of_items_NoDup|].
  apply Forall_forall. intros K HK.
  rewrite keys_dict_of_items, keys_uppercased_items in HK.
  apply list_elem_of_fmap in HK as (k & -> & _). apply upper_idem.
Qed.

Lemma dispatch_transform_idem input :
  supported_shape input = true ->
  exists v, dispatch input "transform" = Return v /\
            dispatch v "transform" = Return v.
Proof.
  destruct input as [| | |s|l|d]; try discriminate; intros _; cbn.
  - eexists. split; [reflexivity|]. cbn. by rewrite upper_idem.
  - eexists. split; [reflexivity|]. cbn. do 2 f_equal.
    rewrite <- list_fmap_compose. apply list_fmap_ext.
    intros i [| | |s| |] _; cbn; try done. by rewrite upper_idem.
  - eexists. split; [reflexivity|]. cbn.
    change ((fun kv : string * value => (Str.upper kv.1, kv.2)) <$> ?x)
      with (uppercased_items x).
    do 2 f_equal. apply dict_transform_idem.
Qed.
End transform_facts.



(** X6.  Except for the parse of a text, the data of a successful result
    has the type of the input, and the metadata records the same type
    name as input and as output type. *)
Theorem successful_result_has_the_input_type {rt : Runtime}
  (self : DataProcessor) (input : value) (operation : string)
  (t0 t1 : datetime) (σ : store) :
  success (fst (process_data self input operation t0 t1 σ)) = true ->
  (forall text, input = VStr text -> operation <> "parse") ->
  let r := fst (process_data self input operation t0 t1 σ) in
  type_name (data r) = type_name input /\
  dict_get (metadata r) "input_type" = Some (SStr (type_name input)) /\
  dict_get (metadata r) "output_type" = Some (SStr (type_name input)).
Proof.
  unfold process_data.
  destruct (dispatch input operation) as [v|msg] eqn:Hd; [|discriminate].
  intros _ Hop. cbn. rewrite (dispatch_type_name input operation v Hd Hop). done.
Qed.

(** A list stays a list under [unique]. *)
Lemma successful_result_has_the_input_type_witness :
  let r := example_call (VList [VInt 1; VInt 1]) "unique" in
  type_name (data r) = type_name (VList [VInt 1; VInt 1]) /\
  dict_get (metadata r) "input_type" = Some (SStr "list") /\
  dict_get (metadata r) "output_type" = Some (SStr "list").
Proof.
  unfold example_call.
  refine (successful_result_has_the_input_type (rt := example_runtime)
            (fst new_processor) (VList [VInt 1; VInt 1]) "unique" 0 1
            (snd new_processor) _ _); [reflexivity | discriminate].
Defined.

(** X7.  The operation [transform] is idempotent on the three shapes:
    transforming the data of a transform's result gives that data again. *)
Theorem transform_is_idempotent {rt : Runtime} (self1 self2 : DataProcessor)
  (input : value) (t0 t1 t2 t3 : datetime) (σ1 σ2 : store) :
  supported_shape input = true ->
  let r1 := fst (process_data self1 input "transform" t0 t1 σ1) in
  let r2 := fst (process_data self2 (data r1) "transform" t2 t3 σ2) in
  success r1 = true /\ success r2 = true /\ data r2 = data r1.
Proof.
  intros Hshape.
  destruct (dispatch_transform_idem input Hshape) as (v & Hd1 & Hd2).
  unfold process_data. rewrite Hd1. cbn. by rewrite Hd2.
Qed.

(** A dictionary whose keys meet in upper case. *)
Lemma transform_is_idempotent_witness :
  let r1 := example_call (VDict [("a", VInt 1); ("A", VInt 2); ("b", VNone)])
              "transform" in
  let r2 := example_call (data r1) "transform" in
  success r1 = true /\ success r2 = true /\ data r2 = data r1.
Proof.
  unfold example_call.
  refine (transform_is_idempotent (rt := example_runtime)
            (fst new_processor) (fst new_processor)
            (VDict [("a", VInt 1); ("A", VInt 2); ("b", VNone)])
            0 1 0 1 (snd new_processor) (snd new_processor) _).
  reflexivity.
Defined.

(** ** The two filters *)

Lemma filter_sublist {A} (f : A -> bool) (l : list A) :
  sublist (List.filter f l) l.
Proof.
  induction l as [|x l IH]; cbn; [constructor|].
  destruct (f x); by constructor.
Qed.

Lemma filter_filter {A} (f : A -> bool) (l : list A) :
  List.filter f (List.filter f l) = List.filter f l.
Proof.
  induction l as [|x l IH]; cbn; [done|].
  destruct (f x) eqn:Hx; cbn; [|done]. by rewrite Hx, IH.
Qed.

Lemma filter_length_split {A} (f : A -> bool) (l : list A) :
  (length (List.filter (fun x => negb (f x)) l) + length (List.filter f l)
   = length l)%nat.
Proof.
  induction l as [|x l IH]; cbn; [done|]. destruct (f x); cbn; lia.
Qed.

Lemma filter_Forall {A} (f : A -> bool) (l : list A) :
  Forall (fun x => f x = true) (List.filter f l).
Proof.
  induction l as [|x l IH]; cbn; [constructor|].
  destruct (f x) eqn:Hx; [by constructor | done].
Qed.

Lemma dict_get_filter {V} (f : V -> bool) (d : list (string * V)) (k : string) :
  NoDup (keys d) ->
  dict_get (List.filter (fun kv => f (snd kv)) d) k =
  match dict_get d k with
  | Some v => if f v then Some v else None
  | None => None
  end.
Proof.
  unfold keys. induction d as [|[k0 v0] d IH]; cbn; [done|].
  intros [Hk0 Hnd]%NoDup_cons.
  destruct (String.eqb_spec k0 k) as [->|Hne].
  - destruct (f v0) eqn:Hf; cbn; [by rewrite String.eqb_refl|].
    rewrite IH by done.
    destruct (dict_get d k) as [v|] eqn:Hget; [|done].
    exfalso. apply Hk0. apply dict_get_elem_of in Hget.
    by apply (list_elem_of_fmap_2 fst) in Hget.
  - destruct (f v0); cbn; [|by apply IH].
    destruct (String.eqb_spec k0 k); [done | by apply IH].
Qed.

(** X8.  The filter of a list succeeds and returns the input without its
    [None] elements: a sublist of the input, in the same order, in which
    no element is [None] and whose length is that of the input less the
    number of [None] elements.  Filtering the output again returns it
    unchanged. *)
Theorem list_filter_removes_the_none_elements {rt : Runtime}
  (self : DataProcessor) (l : list value) (t0 t1 : datetime) (σ : store) :
  let r := fst (process_data self (VList l) "filter" t0 t1 σ) in
  exists out : list value,
    success r = true /\ data r = VList out /\
    sublist out l /\
    Forall (fun x => x <> VNone) out /\
    (length out + length (List.filter is_none l) = length l)%nat /\
    forall self2 t2 t3 σ2,
      data (fst (process_data self2 (VList out) "filter" t2 t3 σ2)) = VList out.
Proof.
  cbn. exists (List.filter (fun item => negb (is_none item)) l).
  split_and!; try done.
  - apply filter_sublist.
  - eapply Forall_impl; [apply filter_Forall|].
    intros [| | | | |]; done.
  - apply (filter_length_split is_none).
  - intros self2 t2 t3 σ2. unfold process_data. cbn. by rewrite filter_filter.
Qed.

(** X9.  The filter of a dictionary succeeds and returns the entries of
    the input whose value is not [None], in the same order: a key is
    read back with the value it had, unless that value was [None], in
    which case the key is absent.  Filtering the output again returns it
    unchanged. *)
Theorem dict_filter_removes_the_none_values {rt : Runtime}
  (self : DataProcessor) (d : dict) (t0 t1 : datetime) (σ : store) :
  NoDup (keys d) ->
  let r := fst (process_data self (VDict d) "filter" t0 t1 σ) in
  exists out : dict,
    success r = true /\ data r = VDict out /\
    sublist out d /\
    (forall k, dict_get out k =
               match dict_get d k with
               | Some VNone => None
               | found => found
               end) /\
    forall self2 t2 t3 σ2,
      data (fst (process_data self2 (VDict out) "filter" t2 t3 σ2)) = VDict out.
Proof.
  intros Hnd. cbn.
  set (out := List.filter (fun kv : string * value => negb (is_none (snd kv))) d).
  assert (Hsub : sublist out d) by apply filter_sublist.
  assert (Hout : NoDup (keys out)).
  { unfold keys. eapply sublist_NoDup; [exact Hnd|]. by apply fmap_sublist. }
  exists out. rewrite (dict_of_items_id out Hout). split_and!; try done.
  - intros k. unfold out.
    rewrite (dict_get_filter (fun v => negb (is_none v))) by done.
    destruct (dict_get d k) as [[| | | | |]|]; done.
  - intros self2 t2 t3 σ2. unfold process_data. cbn.
    unfold out at 1. rewrite filter_filter. fold out.
    by rewrite (dict_of_items_id out Hout).
Qed.

(** A dictionary with one [None] value. *)
Lemma dict_filter_removes_the_none_values_witness :
  let r := example_call (VDict [("a", VNone); ("b", VInt 1)]) "filter" in
  exists out : dict,
    success r = true /\ data r = VDict out /\
    sublist out [("a", VNone); ("b", VInt 1)] /\
    (forall k, dict_get out k =
               match dict_get [("a", VNone); ("b", VInt 1)] k with
               | Some VNone => None
               | found => found
               end) /\
    forall self2 t2 t3 σ2,
      data (fst (process_data (rt := example_runtime) self2 (VDict out)
                   "filter" t2 t3 σ2)) = VDict out.
Proof.
  unfold example_call.
  refine (dict_filter_removes_the_none_values (rt := example_runtime)
            (fst new_processor) [("a", VNone); ("b", VInt 1)] 0 1
            (snd new_processor) _).
  cbn. rewrite !NoDup_cons, !not_elem_of_cons.
  split_and!; try discriminate; try apply not_elem_of_nil. apply NoDup_nil_2.
Defined.

(** ** [process_json_data] and the parse operation *)


(** X11.  [process_json_data] returns a dictionary as it is, and raises
    exactly for an input that is neither a text nor a dictionary, or for
    a text that [json.loads] rejects; a list, which [process_data]
    accepts, is refused. *)
Theorem process_json_data_errors {rt : Runtime} (input : value) :
  (forall d, input = VDict d -> process_json_data input = Return (VDict d)) /\
  (raised (process_json_data input) = true <->
   (forall text, input <> VStr text) /\ (forall d, input <> VDict d) \/
   exists text msg, input = VStr text /\ json_loads text = JSONDecodeError msg) /\
  (forall l, input = VList l ->
     process_json_data input = Raise "Invalid data type for JSON processing").
Proof.
  split_and!.
  - by intros d ->.
  - destruct input as [| | |s|l|d]; cbn;
      try (split; [intros _; left; split; intros; discriminate | done]).
    + destruct (json_loads s) as [v|msg] eqn:Hj; cbn.
      * split; [done|]. intros [[Hs _]|(text & m & [= <-] & Hm)]; [|congruence].
        by destruct (Hs s).
      * split; [|done]. intros _. right. eauto.
    + split; [done|]. intros [[_ Hd]|(text & m & [=] & _)]. by destruct (Hd d).
  - by intros l ->.
Qed.

(** ** Sorting *)

(** The insertion sort over a comparison that does not raise on the
    elements at hand and decides a total preorder on them. *)
Section sorting.
Variable good : value -> Prop.
Variable le : value -> value -> Prop.
Variable ltb : value -> value -> bool.
Hypothesis py_lt_good :
  forall x y, good x -> good y -> py_lt x y = Return (ltb x y).
Hypothesis ltb_true : forall x y, good x -> good y -> ltb x y = true -> le x y.
Hypothesis ltb_false : forall x y, good x -> good y -> ltb x y = false -> le y x.
Hypothesis le_trans :
  forall x y z, good x -> good y -> good z -> le x y -> le y z -> le x z.

Lemma insert_sorted_ordered (x : value) (l : list value) :
  good x -> Forall good l -> StronglySorted le l ->
  exists out,
    insert_sorted x l = Return out /\
    Permutation out (x :: l) /\ StronglySorted le out.
Proof.
  intros Hx. induction l as [|y l IH]; intros Hl Hs.
  - exists [x]. split_and!; [done.. |]. repeat constructor.
  - apply Forall_cons in Hl as [Hy Hl].
    apply StronglySorted_inv in Hs as [Hs Hyl].
    cbn [insert_sorted]. rewrite py_lt_good by done. cbn.
    destruct (ltb x y) eqn:Hlt.
    + exists (x :: y :: l). split_and!; [done..|].
      apply SSorted_cons; [by apply SSorted_cons|].
      apply Forall_cons. split; [by apply ltb_true|].
      rewrite Forall_forall in Hl, Hyl. apply Forall_forall. intros z Hz.
      apply (le_trans x y z); auto.
    + destruct (IH Hl Hs) as (out & -> & Hperm & Hout). cbn.
      exists (y :: out). split_and!; [done | |].
      * rewrite Hperm. apply perm_swap.
      * apply SSorted_cons; [done|]. rewrite Hperm.
        apply Forall_cons. split; [by apply ltb_false | done].
Qed.

Lemma py_sorted_ordered_from (l acc : list value) :
  Forall good l -> Forall good acc -> StronglySorted le acc ->
  exists out,
    fold_left (fun acc x => a ← acc; insert_sorted x a) l (Return acc)
      = Return out /\
    Permutation out (acc ++ l) /\ StronglySorted le out.
Proof.
  revert acc. induction l as [|x l IH]; intros acc Hl Hacc Hs.
  - exists acc. by rewrite app_nil_r.
  - apply Forall_cons in Hl as [Hx Hl].
    destruct (insert_sorted_ordered x acc Hx Hacc Hs)
      as (acc' & Hins & Hperm & Hs').
    cbn. rewrite Hins.
    destruct (IH acc' Hl) as (out & -> & Hperm' & Hout); [|done|].
    + rewrite Hperm. by apply Forall_cons.
    + exists out. split_and!; [done | | done].
      rewrite Hperm', Hperm. cbn. apply Permutation_middle.
Qed.

Lemma py_sorted_ordered (l : list value) :
  Forall good l ->
  exists out,
    py_sorted l = Return out /\ Permutation out l /\ StronglySorted le out.
Proof.
  intros Hl. apply (py_sorted_ordered_from l []); [done | constructor..].
Qed.
End sorting.

Lemma ltb_asym (a b : string) : Str.ltb a b = true -> Str.ltb b a = false.
Proof.
  revert b. induction a as [|x a IH]; intros [|y b]; cbn; try done.
  destruct (N.ltb_spec (Str.code x) (Str.code y)),
           (N.ltb_spec (Str.code y) (Str.code x)); try done; try lia.
  apply IH.
Qed.

Lemma text_le_trans (a b c : string) :
  text_le a b -> text_le b c -> text_le a c.
Proof.
  unfold text_le. revert b c.
  induction a as [|x a IH]; intros [|y b] [|z c]; cbn; try done.
  destruct (N.ltb_spec (Str.code y) (Str.code x)),
           (N.ltb_spec (Str.code x) (Str.code y)),
           (N.ltb_spec (Str.code z) (Str.code y)),
           (N.ltb_spec (Str.code y) (Str.code z)),
           (N.ltb_spec (Str.code z) (Str.code x)),
           (N.ltb_spec (Str.code x) (Str.code z));
    try done; try lia.
  apply IH.
Qed.

Lemma sorted_numbers (l : list value) :
  Forall (fun x => is_number x = true) l ->
  exists out,
    py_sorted l = Return out /\ Permutation out l /\
    StronglySorted (fun a b => number_of a <= number_of b) out.
Proof.
  apply (py_sorted_ordered _ _ (fun x y => number_of x <? number_of y)).
  - intros x y. unfold is_number, number_of.
    destruct x as [|b1|n1| | |], y as [|b2|n2| | |]; cbn; done.
  - intros x y _ _ Hlt%Z.ltb_lt. lia.
  - intros x y _ _ Hge%Z.ltb_ge. lia.
  - intros x y z _ _ _. lia.
Qed.

Lemma sorted_texts (l : list value) :
  Forall (fun x => is_text x = true) l ->
  exists out,
    py_sorted l = Return out /\ Permutation out l /\
    StronglySorted (fun a b => text_le (text_of a) (text_of b)) out.
Proof.
  apply (py_sorted_ordered _ _ (fun x y => Str.ltb (text_of x) (text_of y))).
  - intros [| | |s1| |] [| | |s2| |]; cbn; done.
  - intros x y _ _. apply ltb_asym.
  - intros x y _ _. done.
  - intros x y z _ _ _. apply text_le_trans.
Qed.

(** X12.  The sort of a list of numbers (integers and booleans)
    succeeds and returns a permutation of the input in ascending order.
    The sort of a list with fewer than two elements returns the list,
    whatever its element. *)
Theorem list_sort_orders_numbers {rt : Runtime} (self : DataProcessor)
  (l : list value) (t0 t1 : datetime) (σ : store) :
  let r := fst (process_data self (VList l) "sort" t0 t1 σ) in
  ((length l <= 1)%nat -> success r = true /\ data r = VList l) /\
  (Forall (fun x => is_number x = true) l ->
   exists out : list value,
     success r = true /\ data r = VList out /\
     Permutation out l /\
     StronglySorted (fun a b => number_of a <= number_of b) out).
Proof.
  unfold process_data. cbn. unfold _process_list_data. cbn. split.
  - intros Hlen. destruct l as [|x [|y l]]; cbn in Hlen; try lia; done.
  - intros Hl. destruct (sorted_numbers l Hl) as (out & -> & Hperm & Hout).
    cbn. by exists out.
Qed.

(** Four numbers, one of them a boolean, and a list of one [None]. *)
Lemma list_sort_orders_numbers_witness :
  data (example_call (VList [VNone]) "sort") = VList [VNone] /\
  exists out : list value,
    data (example_call (VList [VInt 3; VBool true; VInt (-2); VInt 0]) "sort")
      = VList out /\
    Permutation out [VInt 3; VBool true; VInt (-2); VInt 0] /\
    StronglySorted (fun a b => number_of a <= number_of b) out.
Proof.
  unfold example_call. split.
  - refine (proj2 (proj1 (list_sort_orders_numbers (rt := example_runtime)
                            (fst new_processor) [VNone] 0 1
                            (snd new_processor)) _)).
    cbn. lia.
  - destruct (proj2 (list_sort_orders_numbers (rt := example_runtime)
                       (fst new_processor)
                       [VInt 3; VBool true; VInt (-2); VInt 0] 0 1
                       (snd new_processor)))
      as (out & _ & Hdata & Hperm & Hsorted).
    + repeat constructor.
    + by exists out.
Defined.

(** X13.  The sort of a list of texts succeeds and returns a permutation
    of the input in ascending lexicographic order of the character
    codes. *)
Theorem list_sort_orders_texts {rt : Runtime} (self : DataProcessor)
  (l : list value) (t0 t1 : datetime) (σ : store) :
  Forall (fun x => is_text x = true) l ->
  let r := fst (process_data self (VList l) "sort" t0 t1 σ) in
  exists out : list value,
    success r = true /\ data r = VList out /\
    Permutation out l /\
    StronglySorted (fun a b => text_le (text_of a) (text_of b)) out.
Proof.
  intros Hl. unfold process_data. cbn. unfold _process_list_data. cbn.
  destruct (sorted_texts l Hl) as (out & -> & Hperm & Hout).
  cbn. by exists out.
Qed.

(** Three texts, one a prefix of another. *)
Lemma list_sort_orders_texts_witness :
  exists out : list value,
    success (example_call (VList [VStr "b"; VStr "ab"; VStr "a"]) "sort") = true /\
    data (example_call (VList [VStr "b"; VStr "ab"; VStr "a"]) "sort")
      = VList out /\
    Permutation out [VStr "b"; VStr "ab"; VStr "a"] /\
    StronglySorted (fun a b => text_le (text_of a) (text_of b)) out.
Proof.
  unfold example_call.
  refine (list_sort_orders_texts (rt := example_runtime) (fst new_processor)
            [VStr "b"; VStr "ab"; VStr "a"] 0 1 (snd new_processor) _).
  repeat constructor.
Defined.

(** ** Sets of hashable values *)

Lemma py_eq_refl (x : value) : hashable x = true -> py_eq x x = true.
Proof.
  destruct x as [|b|n|s| |]; cbn; try done; intros _.
  - by destruct b.
  - apply Z.eqb_refl.
  - apply String.eqb_refl.
Qed.

Lemma py_eq_sym (x y : value) :
  hashable x = true -> hashable y = true -> py_eq x y = py_eq y x.
Proof.
  destruct x as [|b1|n1|s1| |], y as [|b2|n2|s2| |]; cbn; try done; intros _ _.
  - by destruct b1, b2.
  - apply Z.eqb_sym.
  - apply Z.eqb_sym.
  - apply Z.eqb_sym.
  - apply String.eqb_sym.
Qed.

Lemma all_unequal_snoc (s : list value) (x : value) :
  all_unequal s ->
  Forall (fun y => py_eq x y = false /\ py_eq y x = false) s ->
  all_unequal (s ++ [x]).
Proof.
  induction s as [|y s IH]; cbn; [done|].
  intros [Hy Hs] [Hxy Hx]%Forall_cons. split; [|by apply IH].
  apply Forall_app. split; [done|]. apply Forall_singleton. tauto.
Qed.

Lemma all_unequal_Permutation (l1 l2 : list value) :
  Permutation l1 l2 -> all_unequal l1 -> all_unequal l2.
Proof.
  induction 1 as [|x l1 l2 Hp IH|x y l|l1 l2 l3 Hp1 IH1 Hp2 IH2]; cbn.
  - done.
  - intros [Hx Hl]. split; [by rewrite <- Hp | by apply IH].
  - intros [[Hyx Hy]%Forall_cons [Hx Hl]]. split_and!; [|done..].
    apply Forall_cons. split; [tauto | done].
  - auto.
Qed.

Lemma all_unequal_pairwise (l : list value) :
  all_unequal l -> pairwise_unequal l.
Proof.
  unfold pairwise_unequal. induction l as [|z l IH]; intros Hl i j x y Hij Hi Hj.
  - by rewrite lookup_nil in Hi.
  - destruct Hl as [Hz Hl]. rewrite Forall_forall in Hz.
    destruct i as [|i], j as [|j]; cbn in Hi, Hj; try done.
    + injection Hi as ->. apply list_elem_of_lookup_2 in Hj. by apply Hz.
    + injection Hj as ->. apply list_elem_of_lookup_2 in Hi. by apply Hz.
    + apply (IH Hl i j); auto.
Qed.

Lemma existsb_py_eq_false (x : value) (s : list value) :
  hashable x = true -> Forall (fun y => hashable y = true) s ->
  existsb (py_eq x) s = false ->
  Forall (fun y => py_eq x y = false /\ py_eq y x = false) s.
Proof.
  intros Hx. induction 1 as [|y s Hy Hs IH]; cbn; [done|].
  intros [Hxy Hrest]%orb_false_elim. apply Forall_cons. split; [|by apply IH].
  split; [done|]. by rewrite py_eq_sym.
Qed.

(** The set built from [acc] by adding the elements of [l] in order. *)
Lemma py_set_from (l acc : list value) :
  Forall (fun x => hashable x = true) l ->
  fold_left
    (fun acc x =>
       s ← acc;
       if hashable x then Return (set_add s x)
       else Raise ("unhashable type: '" +:+ type_name x +:+ "'"))
    l (Return acc) = Return (fold_left set_add l acc).
Proof.
  revert acc. induction l as [|x l IH]; intros acc; [done|].
  intros [Hx Hl]%Forall_cons. cbn. rewrite Hx. by apply IH.
Qed.

Lemma py_set_unhashable (l acc : list value) :
  ~ Forall (fun x => hashable x = true) l ->
  raised (fold_left
            (fun acc x =>
               s ← acc;
               if hashable x then Return (set_add s x)
               else Raise ("unhashable type: '" +:+ type_name x +:+ "'"))
            l (Return acc)) = true.
Proof.
  revert acc. induction l as [|x l IH]; intros acc Hl.
  - destruct Hl. constructor.
  - cbn. destruct (hashable x) eqn:Hx.
    + apply IH. intros Hall. apply Hl. by constructor.
    + by rewrite fold_left_raise.
Qed.

Lemma set_add_facts (l acc : list value) :
  Forall (fun x => hashable x = true) l ->
  Forall (fun x => hashable x = true) acc ->
  all_unequal acc ->
  let s := fold_left set_add l acc in
  (forall x, x ∈ s -> x ∈ acc \/ x ∈ l) /\
  (forall x, x ∈ acc -> x ∈ s) /\
  (forall x, x ∈ l -> exists y, y ∈ s /\ py_eq x y = true) /\
  all_unequal s.
Proof.
  revert acc. induction l as [|x l IH]; intros acc Hl Hacc Hun; cbn.
  - split_and!; auto. intros x Hx. by apply elem_of_nil in Hx.
  - apply Forall_cons in Hl as [Hx Hl].
    assert (Hadd : Forall (fun y => hashable y = true) (set_add acc x) /\
                   all_unequal (set_add acc x) /\
                   (forall y, y ∈ set_add acc x -> y ∈ acc \/ y = x) /\
                   (forall y, y ∈ acc -> y ∈ set_add acc x) /\
                   exists y, y ∈ set_add acc x /\ py_eq x y = true).
    { unfold set_add. destruct (existsb (py_eq x) acc) eqn:Hex.
      - split_and!; auto. apply existsb_exists in Hex as (y & Hy & Hxy).
        exists y. split; [by apply list_elem_of_In | done].
      - split_and!.
        + apply Forall_app. split; [done | by apply Forall_singleton].
        + apply all_unequal_snoc; [done|]. by apply existsb_py_eq_false.
        + intros y [Hy| ->%list_elem_of_singleton]%elem_of_app; auto.
        + intros y Hy. apply elem_of_app. by left.
        + exists x. split; [|by apply py_eq_refl].
          apply elem_of_app. right. by apply list_elem_of_singleton. }
    destruct Hadd as (Hh & Hu & Hin & Hsub & Hcov).
    destruct (IH (set_add acc x) Hl Hh Hu) as (H1 & H2 & H3 & H4).
    split_and!; [| | |done].
    + intros y Hy. destruct (H1 y Hy) as [Hy'|Hy'].
      * destruct (Hin y Hy') as [?| ->]; [by left|]. right. apply list_elem_of_here.
      * right. by apply list_elem_of_further.
    + auto.
    + intros y [->|Hy]%elem_of_cons; [|by apply H3].
      destruct Hcov as (z & Hz & Hxz). exists z. auto.
Qed.

(** X14.  The operation [unique] on a list succeeds exactly when every
    element is hashable (no list, no dictionary).  The output then holds
    elements of the input only, holds for every element of the input an
    element equal to it, and holds no two equal elements. *)
Theorem list_unique_removes_duplicates {rt : Runtime} (self : DataProcessor)
  (l : list value) (t0 t1 : datetime) (σ : store) :
  let r := fst (process_data self (VList l) "unique" t0 t1 σ) in
  (success r = true <-> Forall (fun x => hashable x = true) l) /\
  (success r = true ->
   exists out : list value,
     data r = VList out /\
     (forall x, x ∈ out -> x ∈ l) /\
     (forall x, x ∈ l -> exists y, y ∈ out /\ py_eq x y = true) /\
     pairwise_unequal out).
Proof.
  unfold process_data. cbn. unfold _process_list_data. cbn. unfold py_set.
  destruct (decide (Forall (fun x => hashable x = true) l)) as [Hl|Hl].
  - rewrite py_set_from by done. cbn. split; [done|]. intros _.
    destruct (set_add_facts l [] Hl) as (H1 & _ & H3 & H4); [constructor | done |].
    pose proof (set_order_perm (fold_left set_add l [])) as Hperm.
    exists (set_order (fold_left set_add l [])). split_and!; [done | | |].
    + intros x Hx. rewrite Hperm in Hx.
      destruct (H1 x Hx) as [Hx'|Hx']; [by apply elem_of_nil in Hx' | done].
    + intros x Hx. destruct (H3 x Hx) as (y & Hy & Hxy).
      exists y. by rewrite Hperm.
    + apply all_unequal_pairwise.
      by apply (all_unequal_Permutation (fold_left set_add l [])).
  - pose proof (py_set_unhashable l [] Hl) as Hr.
    destruct (fold_left _ l (Return [])) as [s|msg]; [discriminate|]. cbn.
    split; [split; [discriminate | done] | discriminate].
Qed.

(** A list in which [True] and [1] are equal, and [1] occurs twice. *)
Lemma list_unique_removes_duplicates_witness :
  exists out : list value,
    data (example_call (VList [VInt 1; VStr "a"; VBool true; VInt 1]) "unique")
      = VList out /\
    (forall x, x ∈ out -> x ∈ [VInt 1; VStr "a"; VBool true; VInt 1]) /\
    (forall x, x ∈ [VInt 1; VStr "a"; VBool true; VInt 1] ->
               exists y, y ∈ out /\ py_eq x y = true) /\
    pairwise_unequal out.
Proof.
  unfold example_call.
  refine (proj2 (list_unique_removes_duplicates (rt := example_runtime)
                   (fst new_processor)
                   [VInt 1; VStr "a"; VBool true; VInt 1] 0 1
                   (snd new_processor)) _).
  reflexivity.
Defined.

(** ** Cleaning a text *)

Ltac all_chars c :=
  destruct c as [b0 b1 b2 b3 b4 b5 b6 b7];
  destruct b0, b1, b2, b3, b4, b5, b6, b7; reflexivity.

Lemma clean_char_space (c : ascii) :
  Str.is_space (clean_char c) = Str.is_space c.
Proof. all_chars c. Qed.

Lemma clean_char_idem (c : ascii) : clean_char (clean_char c) = clean_char c.
Proof. all_chars c. Qed.

Lemma clean_char_no_newline (c : ascii) :
  Ascii.eqb (clean_char c) Str.LF = false /\
  Ascii.eqb (clean_char c) Str.CR = false.
Proof. split; all_chars c. Qed.

Lemma replace_newlines_cons (c : ascii) (s : string) :
  replace_newlines (String c s) = String (clean_char c) (replace_newlines s).
Proof. reflexivity. Qed.

Lemma replace_newlines_idem (s : string) :
  replace_newlines (replace_newlines s) = replace_newlines s.
Proof.
  induction s as [|c s IH]; [done|].
  by rewrite !replace_newlines_cons, clean_char_idem, IH.
Qed.

Lemma replace_newlines_length (s : string) :
  String.length (replace_newlines s) = String.length s.
Proof.
  induction s as [|c s IH]; [done|]. rewrite replace_newlines_cons. cbn.
  by rewrite IH.
Qed.

Lemma replace_newlines_chars (s : string) :
  Forall (fun c => c <> Str.LF /\ c <> Str.CR)
    (list_ascii_of_string (replace_newlines s)).
Proof.
  induction s as [|c s IH]; [constructor|].
  rewrite replace_newlines_cons. cbn. apply Forall_cons. split; [|done].
  destruct (clean_char_no_newline c) as [H1 H2].
  split; by apply Ascii.eqb_neq.
Qed.

Lemma lstrip_replace_newlines (s : string) :
  Str.lstrip (replace_newlines s) = replace_newlines (Str.lstrip s).
Proof.
  induction s as [|c s IH]; [done|].
  rewrite replace_newlines_cons. cbn [Str.lstrip].
  rewrite clean_char_space. destruct (Str.is_space c); [done|].
  by rewrite replace_newlines_cons.
Qed.

Lemma rstrip_replace_newlines (s : string) :
  Str.rstrip (replace_newlines s) = replace_newlines (Str.rstrip s).
Proof.
  induction s as [|c s IH]; [done|].
  rewrite replace_newlines_cons. cbn [Str.rstrip].
  rewrite IH, clean_char_space.
  destruct (Str.rstrip s) as [|c' s'].
  - change (replace_newlines "") with "".
    destruct (Str.is_space c); [done|]. by rewrite replace_newlines_cons.
  - by rewrite !replace_newlines_cons.
Qed.

Lemma strip_replace_newlines (s : string) :
  Str.strip (replace_newlines s) = replace_newlines (Str.strip s).
Proof.
  unfold Str.strip. by rewrite lstrip_replace_newlines, rstrip_replace_newlines.
Qed.

Lemma lstrip_head (s : string) :
  match Str.lstrip s with
  | String c _ => Str.is_space c = false
  | EmptyString => True
  end.
Proof.
  induction s as [|c s IH]; [done|]. cbn.
  destruct (Str.is_space c) eqn:Hc; done.
Qed.

Lemma rstrip_head (s : string) :
  match s with
  | String c _ => Str.is_space c = false
  | EmptyString => True
  end ->
  match Str.rstrip s with
  | String c _ => Str.is_space c = false
  | EmptyString => True
  end.
Proof.
  destruct s as [|c s]; [done|]. cbn. intros Hc.
  destruct (Str.rstrip s); by rewrite ?Hc.
Qed.

Lemma lstrip_fixed (s : string) :
  match s with
  | String c _ => Str.is_space c = false
  | EmptyString => True
  end ->
  Str.lstrip s = s.
Proof. destruct s as [|c s]; [done|]. cbn. by intros ->. Qed.

Lemma rstrip_cons (c : ascii) (s : string) :
  Str.rstrip (String c s) =
  match Str.rstrip s with
  | EmptyString =>
      if Str.is_space c then EmptyString else String c EmptyString
  | r => String c r
  end.
Proof. reflexivity. Qed.

Lemma rstrip_idem (s : string) : Str.rstrip (Str.rstrip s) = Str.rstrip s.
Proof.
  induction s as [|c s IH]; [done|]. rewrite rstrip_cons.
  destruct (Str.rstrip s) as [|c' s'] eqn:Hr.
  - destruct (Str.is_space c) eqn:Hc; [done|]. cbn. by rewrite Hc.
  - by rewrite rstrip_cons, IH.
Qed.

Lemma strip_idem (s : string) : Str.strip (Str.strip s) = Str.strip s.
Proof.
  unfold Str.strip.
  rewrite (lstrip_fixed (Str.rstrip (Str.lstrip s))).
  - apply rstrip_idem.
  - apply rstrip_head, lstrip_head.
Qed.

Lemma lstrip_length (s : string) :
  (String.length (Str.lstrip s) <= String.length s)%nat.
Proof.
  induction s as [|c s IH]; [done|]. cbn.
  destruct (Str.is_space c); cbn; lia.
Qed.

Lemma rstrip_length (s : string) :
  (String.length (Str.rstrip s) <= String.length s)%nat.
Proof.
  induction s as [|c s IH]; [done|]. cbn.
  destruct (Str.rstrip s); [destruct (Str.is_space c)|]; cbn in *; lia.
Qed.

Lemma dispatch_clean {rt : Runtime} (text : string) :
  dispatch (VStr text) "clean" =
  Return (VStr (replace_newlines (Str.strip text))).
Proof. reflexivity. Qed.

(** X15.  The operation [clean] on a text succeeds with a text that holds
    no line feed and no carriage return, neither starts nor ends with
    white space, and is no longer than the input.  Cleaning the output
    again returns it unchanged. *)
Theorem text_clean_result {rt : Runtime} (self : DataProcessor)
  (text : string) (t0 t1 : datetime) (σ : store) :
  let r := fst (process_data self (VStr text) "clean" t0 t1 σ) in
  exists out : string,
    success r = true /\ data r = VStr out /\
    Forall (fun c => c <> Str.LF /\ c <> Str.CR) (list_ascii_of_string out) /\
    Str.strip out = out /\
    (String.length out <= String.length text)%nat /\
    forall self2 t2 t3 σ2,
      data (fst (process_data self2 (VStr out) "clean" t2 t3 σ2)) = VStr out.
Proof.
  unfold process_data. rewrite dispatch_clean. cbn [fst success data].
  exists (replace_newlines (Str.strip text)). split_and!; [done | done | | | |].
  - apply replace_newlines_chars.
  - by rewrite strip_replace_newlines, strip_idem.
  - rewrite replace_newlines_length. unfold Str.strip.
    pose proof (rstrip_length (Str.lstrip text)).
    pose proof (lstrip_length text). lia.
  - intros self2 t2 t3 σ2. rewrite dispatch_clean. cbn [fst data].
    by rewrite strip_replace_newlines, strip_idem, replace_newlines_idem.
Qed.

(** ** Flattening: which leaf is kept *)

Lemma leaf_items_cons (k : string) (v : value) (rest : dict)
  (parent_key sep : string) :
  leaf_items ((k, v) :: rest) parent_key sep =
  match v with
  | VDict d => leaf_items d (new_key parent_key sep k) sep
  | _ => [(new_key parent_key sep k, v)]
  end ++ leaf_items rest parent_key sep.
Proof. destruct v; reflexivity. Qed.

Lemma leaf_items_app (d1 d2 : dict) (parent_key sep : string) :
  leaf_items (d1 ++ d2) parent_key sep =
  leaf_items d1 parent_key sep ++ leaf_items d2 parent_key sep.
Proof.
  induction d1 as [|[k v] d1 IH]; [done|].
  cbn [app]. by rewrite !leaf_items_cons, IH, app_assoc.
Qed.

Lemma dict_get_app {V} (l1 l2 : list (string * V)) (k : string) :
  dict_get (l1 ++ l2) k =
  match dict_get l1 k with
  | Some v => Some v
  | None => dict_get l2 k
  end.
Proof.
  induction l1 as [|[a b] l1 IH]; cbn; [done|].
  destruct (String.eqb a k); [done | apply IH].
Qed.

Lemma dict_get_reverse_NoDup {V} (d : list (string * V)) (k : string) :
  NoDup (keys d) -> dict_get (reverse d) k = dict_get d k.
Proof.
  intros Hnd.
  assert (Hrev : NoDup (keys (reverse d))).
  { unfold keys. by rewrite fmap_reverse, reverse_Permutation. }
  destruct (dict_get d k) as [v|] eqn:Hget.
  - apply dict_get_NoDup; [done|]. apply elem_of_reverse.
    by apply dict_get_elem_of.
  - apply dict_get_None. apply dict_get_None in Hget.
    unfold keys in *. by rewrite fmap_reverse, elem_of_reverse.
Qed.

(** Building a dictionary at every level, as [_flatten_dict] does, or
    once from all the leaves, gives the same lookups. *)
Lemma flatten_items_lookup (sep : string) (d : dict) :
  forall parent_key k,
    dict_get (reverse (flatten_items d parent_key sep)) k =
    dict_get (reverse (leaf_items d parent_key sep)) k.
Proof.
  cut (forall v (d : dict), v = VDict d ->
       forall parent_key k,
         dict_get (reverse (flatten_items d parent_key sep)) k =
         dict_get (reverse (leaf_items d parent_key sep)) k).
  { intros Hcut. exact (Hcut (VDict d) d eq_refl). }
  clear d. intros v. induction v as [| | | | |d Hd] using value_ind;
    intros d0 Heq; try discriminate. injection Heq as <-.
  induction Hd as [|[k0 v0] d Hv0 Hd IH]; intros pk k; [done|].
  rewrite leaf_items_cons. cbn [flatten_items].
  rewrite !reverse_app, !dict_get_app, IH.
  destruct (dict_get (reverse (leaf_items d pk sep)) k); [done|].
  destruct v0 as [| | | | |d']; try done. cbn in Hv0.
  rewrite _flatten_dict_unfold.
  rewrite dict_get_reverse_NoDup by apply dict_of_items_NoDup.
  rewrite dict_get_dict_of_items. by apply Hv0.
Qed.

Lemma leaf_items_sound (sep : string) (d : dict) :
  forall parent_key k x,
    (k, x) ∈ leaf_items d parent_key sep ->
    exists p, leaf_at d p x /\ k = path_key sep parent_key p.
Proof.
  cut (forall v (d : dict), v = VDict d ->
       forall parent_key k x,
         (k, x) ∈ leaf_items d parent_key sep ->
         exists p, leaf_at d p x /\ k = path_key sep parent_key p).
  { intros Hcut. exact (Hcut (VDict d) d eq_refl). }
  clear d. intros v. induction v as [| | | | |d Hd] using value_ind;
    intros d0 Heq; try discriminate. injection Heq as <-.
  induction Hd as [|[k0 v0] d Hv0 Hd IH]; intros pk k x Hin.
  - by apply elem_of_nil in Hin.
  - rewrite leaf_items_cons in Hin. apply elem_of_app in Hin as [Hin|Hin].
    + destruct (is_dict v0) eqn:Hdict.
      * destruct v0 as [| | | | |d']; try discriminate.
        destruct (Hv0 d' eq_refl _ _ _ Hin) as (p & Hleaf & ->).
        exists (k0 :: p). split; [|done].
        eapply leaf_below; [apply list_elem_of_here | exact Hleaf].
      * assert (Hone : (k, x) ∈ [(new_key pk sep k0, v0)])
          by (destruct v0; done).
        apply list_elem_of_singleton in Hone as [= -> ->].
        exists [k0]. split; [|done].
        apply leaf_here; [apply list_elem_of_here | done].
    + destruct (IH pk k x Hin) as (p & Hleaf & ->).
      exists p. split; [|done].
      eapply leaf_at_weaken; [|exact Hleaf].
      intros e He. by apply list_elem_of_further.
Qed.

Lemma leaf_items_complete (sep : string) (d : dict) (p : list string) (v : value) :
  leaf_at d p v ->
  forall parent_key,
    (path_key sep parent_key p, v) ∈ leaf_items d parent_key sep.
Proof.
  induction 1 as [d k v Hin Hv|d d' k p v Hin Hleaf IH]; intros pk.
  - apply list_elem_of_split in Hin as (d1 & d2 & ->).
    rewrite leaf_items_app, leaf_items_cons, !elem_of_app. right; left.
    destruct v; try discriminate; apply list_elem_of_here.
  - apply list_elem_of_split in Hin as (d1 & d2 & ->).
    rewrite leaf_items_app, leaf_items_cons, !elem_of_app. right; left.
    rewrite path_key_cons. apply IH.
Qed.

(** X16.  [_flatten_dict] keeps, for each key, the last leaf in
    depth-first iteration order whose path has this key: the leaves of
    the input, listed in that order with the keys of their paths, give
    the same lookups when the later ones overwrite the earlier ones. *)
Theorem flatten_keeps_the_last_leaf (d : dict) (parent_key sep : string) :
  (forall k v,
      (k, v) ∈ leaf_items d parent_key sep <->
      exists p, leaf_at d p v /\ k = path_key sep parent_key p) /\
  (forall k,
      dict_get (_flatten_dict d parent_key sep) k =
      dict_get (reverse (leaf_items d parent_key sep)) k) /\
  (forall k v before after,
      leaf_items d parent_key sep = before ++ (k, v) :: after ->
      k ∉ keys after ->
      dict_get (_flatten_dict d parent_key sep) k = Some v).
Proof.
  assert (Hget : forall k,
             dict_get (_flatten_dict d parent_key sep) k =
             dict_get (reverse (leaf_items d parent_key sep)) k).
  { intros k. rewrite _flatten_dict_unfold, dict_get_dict_of_items.
    apply flatten_items_lookup. }
  split_and!; [|done|].
  - intros k v. split; [apply leaf_items_sound|].
    intros (p & Hleaf & ->). by apply leaf_items_complete.
  - intros k v before after Heq Hk. rewrite Hget, Heq.
    rewrite reverse_app, reverse_cons, dict_get_app.
    replace (dict_get (reverse after ++ [(k, v)]) k) with (Some v).
    + done.
    + rewrite dict_get_app.
      replace (dict_get (reverse after) k) with (@None value).
      * cbn. by rewrite String.eqb_refl.
      * symmetry. apply dict_get_None. unfold keys in *.
        by rewrite fmap_reverse, elem_of_reverse.
Qed.

(** Two leaves under the key [a_b]; the one met last is kept. *)
Lemma flatten_keeps_the_last_leaf_witness :
  dict_get (_flatten_dict [("a_b", VInt 1); ("a", VDict [("b", VInt 2)])] "" "_")
    "a_b" = Some (VInt 2).
Proof.
  refine (proj2 (proj2 (flatten_keeps_the_last_leaf
                          [("a_b", VInt 1); ("a", VDict [("b", VInt 2)])] "" "_"))
            "a_b" (VInt 2) [("a_b", VInt 1)] [] _ _).
  - reflexivity.
  - apply not_elem_of_nil.
Defined.

(** X17.  Flattening is idempotent: the output of [_flatten_dict] has no
    dictionary among its values and is returned as it is when flattened
    again, so the operation [flatten] applied to the data of its own
    result gives that data. *)
Theorem flatten_is_idempotent {rt : Runtime} (self1 self2 : DataProcessor)
  (d : dict) (parent_key sep sep' : string) (t0 t1 t2 t3 : datetime)
  (σ1 σ2 : store) :
  Forall (fun kv => is_dict (snd kv) = false) (_flatten_dict d parent_key sep) /\
  _flatten_dict (_flatten_dict d parent_key sep) "" sep' =
    _flatten_dict d parent_key sep /\
  let r1 := fst (process_data self1 (VDict d) "flatten" t0 t1 σ1) in
  let r2 := fst (process_data self2 (data r1) "flatten" t2 t3 σ2) in
  success r1 = true /\ success r2 = true /\ data r2 = data r1.
Proof.
  assert (Hflat : forall pk s,
             Forall (fun kv => is_dict (snd kv) = false) (_flatten_dict d pk s)).
  { intros pk s. apply Forall_forall. intros [k x] Hin.
    apply _flatten_dict_elem_of in Hin.
    by eapply flatten_items_single_level. }
  assert (Hidem : forall pk s s',
             _flatten_dict (_flatten_dict d pk s) "" s' = _flatten_dict d pk s).
  { intros pk s s'.
    rewrite (_flatten_dict_unfold (_flatten_dict d pk s)).
    rewrite flatten_items_flat by apply Hflat.
    apply dict_of_items_id. rewrite _flatten_dict_unfold.
    apply dict_of_items_NoDup. }
  split_and!; [apply Hflat | apply Hidem |].
  assert (Hd : forall d0 : dict,
             dispatch (VDict d0) "flatten" = Return (VDict (_flatten_dict d0 "" "_")))
    by reflexivity.
  unfold process_data. rewrite Hd. cbn [fst data success].
  rewrite Hd, Hidem. done.
Qed.
